(** * DFA simulator: the automaton model, the determinism check, the
      acceptance walk, the step trace and the bulk test

    Shallow embedding of the JavaScript sources

    - [baseAutomaton.js]  (class [BaseAutomaton]): [confirmTransition],
      [createNewTransition], [deleteState];
    - [dfaSimulator.js]   (class [DFASimulator extends BaseAutomaton]):
      [validateTransition], [simulateInput], [startStepDebug], [stepNext],
      [stepPrev], [updateDebugDisplay], [runBulkTest];
    - [main.js]           (the self-contained class [DFASimulator]):
      [confirmTransition], [confirmDelete]; its [simulateInput],
      [startStepDebug], [stepNext], [stepPrev] and the global [runBulkTest]
      are copies of the ones in [dfaSimulator.js], except that its
      [simulateInput] also raises an [alert] when there is no start state;

    followed by the properties of the specification, stated on these
    definitions.

    Conventions.  Strings are sequences of UTF-16 code units.  The
    simulator object is a record of the fields the methods use; a method
    that assigns to them is a function in a state and exception monad, so
    that what a call leaves behind when it stops early is part of its
    result.  State objects are shared by reference between [states],
    [transitions] and [startState]; none of the modelled methods assigns to
    a field of a state object, so a transition holds the value of its two
    states.  A transition object found by [find] and then assigned to is
    the first element of [transitions] satisfying the predicate. *)

From Stdlib Require Import List NArith ZArith Bool Lia String Ascii.
From Stdlib Require Import DecimalString Permutation.
Import ListNotations.

(* ===================================================================== *)
(** * JavaScript strings *)
(* ===================================================================== *)

(** A JavaScript string is a sequence of UTF-16 code units.  [s.length],
    [s[i]], [split], [trim] and [substring] work on code units, whereas
    [for (let c of s)] iterates over code points: a high surrogate followed
    by a low surrogate is delivered as ONE two-unit string. *)
Module JS.

Definition jsstring := list N.

(** String literals of the sources (all of them ASCII). *)
Definition str (s : String.string) : jsstring :=
  map N_of_ascii (list_ascii_of_string s).

(** [a === b] on strings. *)
Fixpoint seqb (a b : jsstring) : bool :=
  match a, b with
  | [], [] => true
  | u :: a', v :: b' => N.eqb u v && seqb a' b'
  | _, _ => false
  end.

(** [WhiteSpace] and [LineTerminator] code points, the ones [trim] strips. *)
Definition isWhite (u : N) : bool :=
  ((9 <=? u) && (u <=? 13) || (u =? 32) || (u =? 160) || (u =? 5760)
   || (8192 <=? u) && (u <=? 8202) || (u =? 8232) || (u =? 8233)
   || (u =? 8239) || (u =? 8287) || (u =? 12288) || (u =? 65279))%N.

Fixpoint trimStart (s : jsstring) : jsstring :=
  match s with
  | [] => []
  | u :: r => if isWhite u then trimStart r else s
  end.

Fixpoint trimEnd (s : jsstring) : jsstring :=
  match s with
  | [] => []
  | u :: r =>
      match trimEnd r with
      | [] => if isWhite u then [] else [u]
      | r' => u :: r'
      end
  end.

(** [s.trim()] *)
Definition trim (s : jsstring) : jsstring := trimEnd (trimStart s).

(** [s.split(sep)] for a one-unit separator: always one piece more than
    there are separators, so [''.split(',')] is [['']]. *)
Fixpoint split (sep : N) (s : jsstring) : list jsstring :=
  match s with
  | [] => [[]]
  | u :: r =>
      if N.eqb u sep then [] :: split sep r
      else match split sep r with
           | [] => [[u]]
           | p :: ps => (u :: p) :: ps
           end
  end.

(** [a.join(sep)] *)
Fixpoint join (sep : jsstring) (a : list jsstring) : jsstring :=
  match a with
  | [] => []
  | [x] => x
  | x :: r => x ++ sep ++ join sep r
  end.

(** [a.includes(x)] on an array of strings. *)
Definition includes (a : list jsstring) (x : jsstring) : bool :=
  existsb (seqb x) a.

(** [a.indexOf(x)]: the first index holding [x], or -1. *)
Fixpoint indexOf (a : list jsstring) (x : jsstring) : Z :=
  match a with
  | [] => -1
  | y :: r => if seqb y x then 0
              else let i := indexOf r x in
                   if (i <? 0)%Z then -1 else (i + 1)%Z
  end.

(** [a.lastIndexOf(x)]: the last index holding [x], or -1. *)
Fixpoint lastIndexOf (a : list jsstring) (x : jsstring) : Z :=
  match a with
  | [] => -1
  | y :: r => let i := lastIndexOf r x in
              if (i <? 0)%Z then (if seqb y x then 0 else -1)
              else (i + 1)%Z
  end.

Definition isHighSurrogate (u : N) : bool := ((55296 <=? u) && (u <=? 56319))%N.
Definition isLowSurrogate (u : N) : bool := ((56320 <=? u) && (u <=? 57343))%N.

(** The string iterator behind [for (let c of s)]. *)
Fixpoint codePoints (s : jsstring) : list jsstring :=
  match s with
  | [] => []
  | u :: r =>
      match r with
      | v :: r' =>
          if isHighSurrogate u && isLowSurrogate v
          then [u; v] :: codePoints r'
          else [u] :: codePoints r
      | [] => [[u]]
      end
  end.

(** The units [s[0]], [s[1]], ... as one-unit strings. *)
Definition units (s : jsstring) : list jsstring := map (fun u => [u]) s.

(** [s.substring(i)] for [0 <= i]. *)
Definition substring (s : jsstring) (i : nat) : jsstring := skipn i s.

Definition comma : N := 44.
Definition newline : N := 10.
Definition commaSpace : jsstring := [44; 32]%N.

End JS.
Import JS.

(* ===================================================================== *)
(** * The data model *)
(* ===================================================================== *)

(** A state object [{id, x, y, isFinal, label}].  The canvas position
    [x], [y] is never read by the functions below and is left out. *)
Record State : Type := mkState {
  id : Z;
  isFinal : bool;
  label : jsstring
}.

(** A transition object [{id, from, to, symbol, offset, offsetDirection,
    labelOffset, selfLoopAngle}].  [symbol] is the comma-joined text the
    sources store; [tid] is the source's [id].  Of the layout fields only
    [offset] and [offsetDirection] are written on an object that is
    already in the model, so these two are kept. *)
Record Transition : Type := mkTransition {
  tid : Z;
  from : State;
  to : State;
  symbol : jsstring;
  offset : option Z;
  offsetDirection : option Z
}.

(** One entry of [debugSteps].  [rejected], [final] and [accepted] are
    properties that may be absent ([None]). *)
Record Step : Type := mkStep {
  step : Z;
  state : State;
  char : option jsstring;
  transition : option Transition;
  remaining : jsstring;
  message : jsstring;
  rejected : option bool;
  final : option bool;
  accepted : option bool
}.

(** The fields of the simulator object that the modelled methods use. *)
Record Sim : Type := mkSim {
  states : list State;
  transitions : list Transition;
  startState : option State;
  selectedState : option State;
  selectedTransition : option Transition;
  debugMode : bool;
  debugString : jsstring;
  debugSteps : list Step;
  currentDebugStep : Z
}.

(** JavaScript truthiness of an optional flag. *)
Definition truthy (b : option bool) : bool :=
  match b with Some true => true | _ => false end.

(** [t.symbol.split(',').map(s => s.trim())] *)
Definition symbolsOf (t : Transition) : list jsstring :=
  map trim (split comma (symbol t)).

(* ===================================================================== *)
(** * dfaSimulator.js: [simulateInput] *)
(* ===================================================================== *)

(** The callback of [this.transitions.find] in [simulateInput] and in
    [startStepDebug]. *)
Definition matches (currentState : State) (c : jsstring) (t : Transition) : bool :=
  if negb (id (from t) =? id currentState)%Z then false
  else includes (symbolsOf t) c.

(** The body of the [for ... of] loop, with its early [return false]. *)
Fixpoint simulateLoop (ts : list Transition) (currentState : State)
  (input : list jsstring) : bool :=
  match input with
  | [] => isFinal currentState
  | c :: rest =>
      match find (matches currentState c) ts with
      | None => false
      | Some t => simulateLoop ts (to t) rest
      end
  end.

(** [DFASimulator.simulateInput] *)
Definition simulateInput (sim : Sim) (input : jsstring) : bool :=
  match startState sim with
  | None => false
  | Some s => simulateLoop (transitions sim) s (codePoints input)
  end.

(* ===================================================================== *)
(** * Methods that change the simulator: a state and exception monad *)
(* ===================================================================== *)

(** What the sources [alert] or [throw]. *)
Inductive Error : Type :=
| NoSymbolEntered   (* 'Please enter at least one transition symbol!' *)
| NoValidSymbols    (* 'Please enter valid symbols!' *)
| InvalidSymbol     (* 'Each symbol must be exactly one character!' *)
| DeterminismViolation (stateLabel sym : jsstring)
                    (* `DFA rule violation: State '${label}' already has a
                        transition for symbol '${symbol}'!` *)
| DuplicateSymbol   (* 'All symbols already exist for this transition!' *)
| NoStartState      (* 'No start state defined!' *)
| TypeError.        (* a property read on [undefined] *)

(** A method either returns or throws; in both cases the simulator object
    is left in the state the method had reached. *)
Inductive Res (A : Type) : Type :=
| Ret (a : A)
| Throw (e : Error).
Arguments Ret {A} a.
Arguments Throw {A} e.

Definition M (A : Type) : Type := Sim -> Res A * Sim.

Definition ret {A} (a : A) : M A := fun s => (Ret a, s).

Definition throw {A} (e : Error) : M A := fun s => (Throw e, s).

Definition bind {A B} (c : M A) (k : A -> M B) : M B :=
  fun s => match c s with
           | (Ret a, s') => k a s'
           | (Throw e, s') => (Throw e, s')
           end.

Definition gets {A} (f : Sim -> A) : M A := fun s => (Ret (f s), s).

Definition modify (f : Sim -> Sim) : M unit := fun s => (Ret tt, f s).

(** [try { c } catch (error) { h error }] *)
Definition tryCatch {A} (c : M A) (h : Error -> M A) : M A :=
  fun s => match c s with
           | (Ret a, s') => (Ret a, s')
           | (Throw e, s') => h e s'
           end.

Notation "x <- c ;; k" := (bind c (fun x => k))
  (at level 61, c at next level, right associativity).
Notation "c ;; k" := (bind c (fun _ => k))
  (at level 61, right associativity).

(** [for (let x of l) { f x }] where [f] may throw. *)
Fixpoint forEachM {A} (f : A -> M unit) (l : list A) : M unit :=
  match l with
  | [] => ret tt
  | x :: r => f x ;; forEachM f r
  end.

(** What the user sees of a UI method that returns nothing: it ran to its
    end, or it stopped at an [alert]. *)
Inductive Outcome : Type :=
| Completed
| Alert (e : Error).

(** ** Field assignments *)

Definition setStates (v : list State) (s : Sim) : Sim :=
  mkSim v (transitions s) (startState s) (selectedState s)
        (selectedTransition s) (debugMode s) (debugString s) (debugSteps s)
        (currentDebugStep s).

Definition setTransitions (v : list Transition) (s : Sim) : Sim :=
  mkSim (states s) v (startState s) (selectedState s)
        (selectedTransition s) (debugMode s) (debugString s) (debugSteps s)
        (currentDebugStep s).

Definition setStartState (v : option State) (s : Sim) : Sim :=
  mkSim (states s) (transitions s) v (selectedState s)
        (selectedTransition s) (debugMode s) (debugString s) (debugSteps s)
        (currentDebugStep s).

Definition setSelectedState (v : option State) (s : Sim) : Sim :=
  mkSim (states s) (transitions s) (startState s) v
        (selectedTransition s) (debugMode s) (debugString s) (debugSteps s)
        (currentDebugStep s).

Definition setSelectedTransition (v : option Transition) (s : Sim) : Sim :=
  mkSim (states s) (transitions s) (startState s) (selectedState s)
        v (debugMode s) (debugString s) (debugSteps s)
        (currentDebugStep s).

Definition setDebugMode (v : bool) (s : Sim) : Sim :=
  mkSim (states s) (transitions s) (startState s) (selectedState s)
        (selectedTransition s) v (debugString s) (debugSteps s)
        (currentDebugStep s).

Definition setDebugString (v : jsstring) (s : Sim) : Sim :=
  mkSim (states s) (transitions s) (startState s) (selectedState s)
        (selectedTransition s) (debugMode s) v (debugSteps s)
        (currentDebugStep s).

Definition setDebugSteps (v : list Step) (s : Sim) : Sim :=
  mkSim (states s) (transitions s) (startState s) (selectedState s)
        (selectedTransition s) (debugMode s) (debugString s) v
        (currentDebugStep s).

Definition setCurrentDebugStep (v : Z) (s : Sim) : Sim :=
  mkSim (states s) (transitions s) (startState s) (selectedState s)
        (selectedTransition s) (debugMode s) (debugString s) (debugSteps s)
        v.

Definition setSymbol (v : jsstring) (t : Transition) : Transition :=
  mkTransition (tid t) (from t) (to t) v (offset t) (offsetDirection t).

Definition setOffset (o d : Z) (t : Transition) : Transition :=
  mkTransition (tid t) (from t) (to t) (symbol t) (Some o) (Some d).

(** An assignment to a field of the object that [find] returned: the first
    element satisfying [p] is the one that changes. *)
Fixpoint updateFirst {A} (p : A -> bool) (f : A -> A) (l : list A) : list A :=
  match l with
  | [] => []
  | x :: r => if p x then f x :: r else x :: updateFirst p f r
  end.

(** An assignment to a field of the object at position [i] of an array. *)
Fixpoint updateAt {A} (i : nat) (f : A -> A) (l : list A) : list A :=
  match l, i with
  | [], _ => []
  | x :: r, O => f x :: r
  | x :: r, S j => x :: updateAt j f r
  end.

(** [t.from.id === a.id && t.to.id === b.id] *)
Definition joins (a b : State) (t : Transition) : bool :=
  (id (from t) =? id a)%Z && (id (to t) =? id b)%Z.

(** [t.from.id === a.id && t.symbol.split(',').map(s => s.trim()).includes(c)] *)
Definition carriesFrom (a : State) (c : jsstring) (t : Transition) : bool :=
  (id (from t) =? id a)%Z && includes (symbolsOf t) c.

(** The text of the transition dialog, as both [confirmTransition]s read
    it: [input.split(',').map(s => s.trim()).filter(s => s.length > 0)]. *)
Definition parseSymbols (input : jsstring) : list jsstring :=
  filter (fun s => (0 <? List.length s)%nat) (map trim (split comma input)).

(** The placement of a new transition and the [push], shared by
    [BaseAutomaton.createNewTransition] and main.js's [confirmTransition]:
    a transition in the opposite direction, when there is one, is offset
    together with the new one. *)
Definition placeAndPush (a b : State) (symbols : list jsstring) (newId : Z) : M unit :=
  ts <- gets transitions ;;
  let t := mkTransition newId a b (join commaSpace symbols) None None in
  if (id a =? id b)%Z then
    modify (fun s => setTransitions (transitions s ++ [t]) s)
  else
    match find (joins b a) ts with
    | Some _ =>
        modify (fun s => setTransitions
                  (updateFirst (joins b a) (setOffset 10 (-1)) (transitions s)) s) ;;
        modify (fun s => setTransitions
                  (transitions s ++ [setOffset (-10) 1 t]) s)
    | None =>
        modify (fun s => setTransitions (transitions s ++ [t]) s)
    end.

(* ===================================================================== *)
(** * baseAutomaton.js and dfaSimulator.js *)
(* ===================================================================== *)

Module Modular.

(** [DFASimulator.validateTransition] *)
Definition validateTransition (fromState toState : State)
  (symbols : list jsstring) : M bool :=
  forEachM (fun c =>
      if (List.length c =? 1)%nat then ret tt else throw InvalidSymbol) symbols ;;
  forEachM (fun c =>
      ts <- gets transitions ;;
      match find (carriesFrom fromState c) ts with
      | Some _ => throw (DeterminismViolation (label fromState) c)
      | None => ret tt
      end) symbols ;;
  ret true.

(** [BaseAutomaton.createNewTransition] *)
Definition createNewTransition (a b : State) (symbols : list jsstring)
  (newId : Z) : M unit :=
  ts <- gets transitions ;;
  match find (joins a b) ts with
  | Some existingTransition =>
      let existingSymbols := symbolsOf existingTransition in
      let newSymbols :=
        filter (fun c => negb (includes existingSymbols c)) symbols in
      if (0 <? List.length newSymbols)%nat then
        modify (fun s => setTransitions
                  (updateFirst (joins a b)
                     (setSymbol (join commaSpace (existingSymbols ++ newSymbols)))
                     (transitions s)) s)
      else throw DuplicateSymbol
  | None => placeAndPush a b symbols newId
  end.

(** [BaseAutomaton.confirmTransition].  [transitionInput] is the text of the
    dialog, [a], [b] and [editingTransition] are [pendingTransitionData]
    (the transition being edited is given by its position in
    [this.transitions]), [newId] is what [Date.now() + Math.random()]
    yields. *)
Definition confirmTransition (transitionInput : jsstring) (a b : State)
  (editingTransition : option nat) (newId : Z) : M Outcome :=
  let input := trim transitionInput in
  match input with
  | [] => ret (Alert NoSymbolEntered)
  | _ =>
    let symbols := parseSymbols input in
    if (List.length symbols =? 0)%nat then ret (Alert NoValidSymbols) else
    caught <- tryCatch (validateTransition a b symbols ;; ret None)
                       (fun e => ret (Some e)) ;;
    match caught with
    | Some e => ret (Alert e)
    | None =>
        match editingTransition with
        | Some i =>
            modify (fun s => setTransitions
                      (updateAt i (setSymbol (join commaSpace symbols))
                                (transitions s)) s)
        | None => createNewTransition a b symbols newId
        end ;;
        ret Completed
    end
  end.

(** [BaseAutomaton.deleteState] *)
Definition deleteState (st : State) : M unit :=
  modify (fun s => setStates
            (filter (fun q => negb (id q =? id st)%Z) (states s)) s) ;;
  modify (fun s => setTransitions
            (filter (fun t => negb (id (from t) =? id st)%Z
                              && negb (id (to t) =? id st)%Z)
                    (transitions s)) s) ;;
  start <- gets startState ;;
  match start with
  | Some q => if (id q =? id st)%Z then modify (setStartState None) else ret tt
  | None => ret tt
  end ;;
  modify (setSelectedState None).

End Modular.

(* ===================================================================== *)
(** * main.js: the self-contained class [DFASimulator] *)
(* ===================================================================== *)

Module Monolith.

(** [DFASimulator.confirmTransition] of main.js *)
Definition confirmTransition (transitionInput : jsstring) (a b : State)
  (editingTransition : option nat) (newId : Z) : M Outcome :=
  let input := trim transitionInput in
  match input with
  | [] => ret (Alert NoSymbolEntered)
  | _ =>
    let symbols := parseSymbols input in
    if (List.length symbols =? 0)%nat then ret (Alert NoValidSymbols) else
    if negb (forallb (fun c => (List.length c =? 1)%nat) symbols)
    then ret (Alert InvalidSymbol) else
    match editingTransition with
    | Some i =>
        modify (fun s => setTransitions
                  (updateAt i (setSymbol (join commaSpace symbols))
                            (transitions s)) s) ;;
        ret Completed
    | None =>
        ts <- gets transitions ;;
        match find (joins a b) ts with
        | Some existingTransition =>
            let existingSymbols := symbolsOf existingTransition in
            let newSymbols :=
              filter (fun c => negb (includes existingSymbols c)) symbols in
            if (0 <? List.length newSymbols)%nat then
              modify (fun s => setTransitions
                        (updateFirst (joins a b)
                           (setSymbol (join commaSpace (existingSymbols ++ newSymbols)))
                           (transitions s)) s) ;;
              ret Completed
            else ret (Alert DuplicateSymbol)
        | None =>
            match find (fun c => match find (carriesFrom a c) ts with
                                 | Some _ => true
                                 | None => false
                                 end) symbols with
            | Some c => ret (Alert (DeterminismViolation (label a) c))
            | None => placeAndPush a b symbols newId ;; ret Completed
            end
        end
    end
  end.

(** [DFASimulator.confirmDelete] of main.js *)
Definition confirmDelete : M unit :=
  selT <- gets selectedTransition ;;
  selS <- gets selectedState ;;
  match selT, selS with
  | Some sel, _ =>
      modify (fun s => setTransitions
                (updateFirst
                   (fun t => (id (from t) =? id (to sel))%Z
                             && (id (to t) =? id (from sel))%Z
                             && match offset t with
                                | Some o => negb (o =? 0)%Z
                                | None => false
                                end)
                   (fun t => mkTransition (tid t) (from t) (to t) (symbol t)
                                          (Some 0%Z) (Some 0%Z))
                   (transitions s)) s) ;;
      modify (fun s => setTransitions
                (filter (fun t => negb (tid t =? tid sel)%Z) (transitions s)) s) ;;
      modify (setSelectedTransition None)
  | None, Some st =>
      modify (fun s => setStates
                (filter (fun q => negb (id q =? id st)%Z) (states s)) s) ;;
      modify (fun s => setTransitions
                (filter (fun t => negb (id (from t) =? id st)%Z
                                  && negb (id (to t) =? id st)%Z)
                        (transitions s)) s) ;;
      start <- gets startState ;;
      match start with
      | Some q => if (id q =? id st)%Z then modify (setStartState None) else ret tt
      | None => ret tt
      end ;;
      modify (setSelectedState None)
  | None, None => ret tt
  end.

End Monolith.

(* ===================================================================== *)
(** * dfaSimulator.js: the step debugger *)
(* ===================================================================== *)

(** The four object literals that [startStepDebug] pushes. *)

Definition initialStep (currentState : State) (input : jsstring) : Step :=
  mkStep 0 currentState None None input
         (str "Starting at state " ++ label currentState)%list
         None None None.

Definition rejectedStep (i : nat) (currentState : State) (c input : jsstring) : Step :=
  mkStep (Z.of_nat i + 1) currentState (Some c) None (substring input i)
         (str "No transition for '" ++ c ++ str "' from "
            ++ label currentState ++ str ". REJECTED.")%list
         (Some true) None None.

Definition movedStep (i : nat) (currentState : State) (t : Transition)
  (c input : jsstring) : Step :=
  mkStep (Z.of_nat i + 1) (to t) (Some c) (Some t) (substring input (i + 1))
         (str "Read '" ++ c ++ str "', transition from "
            ++ label currentState ++ str " to " ++ label (to t))%list
         None None None.

Definition finalStep (currentState : State) (input : jsstring) : Step :=
  let finalAccepted := isFinal currentState in
  mkStep (Z.of_nat (List.length input) + 1) currentState None None []
         (str "String consumed. " ++ label currentState ++ str " is "
            ++ (if finalAccepted then [] else str "not ")
            ++ str "a final state. "
            ++ (if finalAccepted then str "ACCEPTED" else str "REJECTED")
            ++ str ".")%list
         None (Some true) (Some finalAccepted).

(** The loop [for (let i = 0; i < input.length; i++)]: [rest] is what is
    left of [input] from index [i] on, so its head is [input[i]].  The
    result is the steps pushed from iteration [i] on and the value of
    [currentState] when the loop is left. *)
Fixpoint debugLoop (ts : list Transition) (input : jsstring) (i : nat)
  (rest : jsstring) (currentState : State) : list Step * State :=
  match rest with
  | [] => ([], currentState)
  | u :: rest' =>
      let c := [u] in
      match find (matches currentState c) ts with
      | None => ([rejectedStep i currentState c input], currentState)
      | Some t =>
          let (steps, final_state) := debugLoop ts input (S i) rest' (to t) in
          (movedStep i currentState t c input :: steps, final_state)
      end
  end.

(** The steps that [startStepDebug] generates. *)
Definition generateSteps (ts : list Transition) (start : State)
  (input : jsstring) : list Step :=
  let first := initialStep start input in
  let (looped, currentState) := debugLoop ts input 0 input start in
  let steps := first :: looped in
  if negb (truthy (rejected (last steps first)))
  then steps ++ [finalStep currentState input]
  else steps.

(** [updateDebugDisplay] reads [this.debugSteps[this.currentDebugStep]]
    and then its [step] property; the rest is page rendering. *)
Definition updateDebugDisplay : M unit :=
  steps <- gets debugSteps ;;
  i <- gets currentDebugStep ;;
  if (i <? 0)%Z then throw TypeError
  else match nth_error steps (Z.to_nat i) with
       | None => throw TypeError
       | Some _ => ret tt
       end.

(** [startStepDebug]; [testInput] is the text of the test field. *)
Definition startStepDebug (testInput : jsstring) : M Outcome :=
  let input := trim testInput in
  start <- gets startState ;;
  match start with
  | None => ret (Alert NoStartState)
  | Some s0 =>
      modify (setDebugMode true) ;;
      modify (setDebugString input) ;;
      modify (setDebugSteps []) ;;
      modify (setCurrentDebugStep (-1)) ;;
      ts <- gets transitions ;;
      modify (setDebugSteps (generateSteps ts s0 input)) ;;
      modify (setCurrentDebugStep 0) ;;
      updateDebugDisplay ;;
      ret Completed
  end.

Definition stepNext : M unit :=
  i <- gets currentDebugStep ;;
  steps <- gets debugSteps ;;
  if (i <? Z.of_nat (List.length steps) - 1)%Z then
    modify (setCurrentDebugStep (i + 1)) ;;
    updateDebugDisplay
  else ret tt.

Definition stepPrev : M unit :=
  i <- gets currentDebugStep ;;
  if (0 <? i)%Z then
    modify (setCurrentDebugStep (i - 1)) ;;
    updateDebugDisplay
  else ret tt.

(** The buttons of the step debugger, and a sequence of clicks. *)
Inductive Click : Type := Next | Prev.

Definition click (c : Click) : M unit :=
  match c with Next => stepNext | Prev => stepPrev end.

(** The trace of the specification: the steps generated for an automaton
    that has a start state. *)
Definition trace (sim : Sim) (input : jsstring) : option (list Step) :=
  match startState sim with
  | None => None
  | Some s0 => Some (generateSteps (transitions sim) s0 input)
  end.

(** [trace(A, s).last.final && trace(A, s).last.accepted] *)
Definition lastVerdict (steps : list Step) : bool :=
  match rev steps with
  | [] => false
  | l :: _ => truthy (final l) && truthy (accepted l)
  end.

(* ===================================================================== *)
(** * [runBulkTest] (dfaSimulator.js, and the global function of main.js) *)
(* ===================================================================== *)

Module Bulk.

(** One element of [results]. *)
Record BulkResult : Type := mkBulkResult {
  string : jsstring;
  expected : jsstring;
  actual : jsstring;
  passed : bool
}.

(** The call [displayBulkResults(results, passedTests, totalTests)], or the
    [alert] that comes instead. *)
Inductive BulkOutcome : Type :=
| BulkAlert (e : Error)
| Displayed (results : list BulkResult) (passedTests totalTests : Z).

(** [document.getElementById(...).value.split('\n').map(s => s.trim())
      .filter(s => s !== null)] *)
Definition lines (value : jsstring) : list jsstring :=
  filter (fun _ => true) (map trim (split newline value)).

Definition verdictText (b : bool) : jsstring :=
  if b then str "ACCEPT" else str "REJECT".

(** The guard of both [forEach] callbacks. *)
Definition tested (all : list jsstring) (s : jsstring) : bool :=
  seqb s [] || (indexOf all s =? lastIndexOf all s)%Z.

(** The callback of [acceptStrings.forEach] ([expectedResult = true]) and of
    [rejectStrings.forEach] ([expectedResult = false]), acting on
    [results], [totalTests] and [passedTests]. *)
Definition bulkCallback (sim : Sim) (all : list jsstring) (expectedResult : bool)
  (acc : list BulkResult * Z * Z) (s : jsstring) : list BulkResult * Z * Z :=
  let '(results, totalTests, passedTests) := acc in
  if tested all s then
    let testStr := if seqb s [] then str "(empty string)" else s in
    let actualResult := simulateInput sim s in
    let passed := Bool.eqb actualResult expectedResult in
    (results ++ [mkBulkResult testStr (verdictText expectedResult)
                              (verdictText actualResult) passed],
     (totalTests + 1)%Z,
     if passed then (passedTests + 1)%Z else passedTests)
  else acc.

Definition bulkLists (sim : Sim) (acceptStrings rejectStrings : list jsstring)
  : list BulkResult * Z * Z :=
  let acc := fold_left (bulkCallback sim acceptStrings true)
                       acceptStrings ([], 0%Z, 0%Z) in
  fold_left (bulkCallback sim rejectStrings false) rejectStrings acc.

Definition runBulkTest (sim : Sim) (acceptInput rejectInput : jsstring)
  : BulkOutcome :=
  match startState sim with
  | None => BulkAlert NoStartState
  | Some _ =>
      let '(results, totalTests, passedTests) :=
        bulkLists sim (lines acceptInput) (lines rejectInput) in
      Displayed results passedTests totalTests
  end.

End Bulk.

(* ===================================================================== *)
(** * Notions of the specification *)
(* ===================================================================== *)

(** [c] is in the symbol set of [t]. *)
Definition carries (t : Transition) (c : jsstring) : Prop :=
  In c (symbolsOf t).

(** Single-symbol lookup: [t] is the first transition of [ts] that leaves
    [cur] and carries [c]. *)
Definition FirstMatch (ts : list Transition) (cur : State) (c : jsstring)
  (t : Transition) : Prop :=
  exists pre post,
    ts = pre ++ t :: post /\
    id (from t) = id cur /\ carries t c /\
    forall t', In t' pre -> ~ (id (from t') = id cur /\ carries t' c).

(** No transition of [ts] leaves [cur] with [c]. *)
Definition NoMatch (ts : list Transition) (cur : State) (c : jsstring) : Prop :=
  forall t, In t ts -> ~ (id (from t) = id cur /\ carries t c).

(** The walk of the specification: from [s], consuming the characters one
    by one through single-symbol lookup, the automaton arrives at [s']. *)
Inductive Walk (ts : list Transition) : State -> list jsstring -> State -> Prop :=
| Walk_done : forall s, Walk ts s [] s
| Walk_move : forall s c t rest s',
    FirstMatch ts s c t -> Walk ts (to t) rest s' ->
    Walk ts s (c :: rest) s'.

(** The transitions that the loop of [simulateInput] takes, in order, up to
    the end of the input or to the first character without a transition. *)
Fixpoint visited (ts : list Transition) (currentState : State)
  (input : list jsstring) : list Transition :=
  match input with
  | [] => []
  | c :: rest =>
      match find (matches currentState c) ts with
      | None => []
      | Some t => t :: visited ts (to t) rest
      end
  end.

(** The determinism invariant: at most one transition (one position of
    [ts]) leaves a given state with a given symbol. *)
Definition Deterministic (ts : list Transition) : Prop :=
  forall i j ti tj c,
    nth_error ts i = Some ti -> nth_error ts j = Some tj ->
    id (from ti) = id (from tj) ->
    carries ti c -> carries tj c -> i = j.

(** A call of [confirmTransition] failed: it stopped at an [alert] or it
    threw. *)
Definition failedWith (r : Res Outcome) (e : Error) : Prop :=
  r = Ret (Alert e) \/ r = Throw e.

(** The clicks of the step debugger, one after the other. *)
Definition runClicks (cs : list Click) : M unit := forEachM click cs.

(** One element of the bulk results, for a tested string. *)
Definition bulkEntry (sim : Sim) (expectedResult : bool) (s : jsstring)
  : Bulk.BulkResult :=
  Bulk.mkBulkResult
    (if seqb s [] then str "(empty string)" else s)
    (Bulk.verdictText expectedResult)
    (Bulk.verdictText (simulateInput sim s))
    (Bool.eqb (simulateInput sim s) expectedResult).

(** The transitions recorded in a list of steps, in order. *)
Definition recordedTransitions (steps : list Step) : list Transition :=
  flat_map (fun st => match transition st with
                      | Some t => [t]
                      | None => []
                      end) steps.

(** The current step of the debugger is one of the generated steps. *)
Definition InBounds (sim : Sim) : Prop :=
  (0 <= currentDebugStep sim <= Z.of_nat (List.length (debugSteps sim)) - 1)%Z.

(** Scenario 4 as the specification words it: three steps 0, 1, 2, the
    first without character and transition, the one with index 2 last and
    flagged final. *)
Definition threeStepTrace (sim : Sim) (input : jsstring) : Prop :=
  exists st0 st1 st2,
    trace sim input = Some [st0; st1; st2] /\
    step st0 = 0%Z /\ step st1 = 1%Z /\ step st2 = 2%Z /\
    char st0 = None /\ transition st0 = None /\
    final st2 = Some true.

(** The bulk test as the specification words it: one entry for each string
    of both lists. *)
Definition oneEntryPerString (sim : Sim) (acceptInput rejectInput : jsstring)
  : Prop :=
  exists passedTests totalTests,
    Bulk.runBulkTest sim acceptInput rejectInput =
    Bulk.Displayed
      (map (bulkEntry sim true) (Bulk.lines acceptInput)
         ++ map (bulkEntry sim false) (Bulk.lines rejectInput))
      passedTests totalTests.

(** How often [s] occurs in the array [all]. *)
Definition occurrences (all : list jsstring) (s : jsstring) : nat :=
  List.length (filter (fun y => seqb y s) all).

(** Two transitions clash when they leave the same state and share a
    symbol. *)
Definition clash (t t' : Transition) : Prop :=
  exists c, id (from t) = id (from t') /\ carries t c /\ carries t' c.

(** The determinism invariant, transition by transition: no transition
    clashes with a later one. *)
Inductive ClashFree : list Transition -> Prop :=
| ClashFree_nil : ClashFree []
| ClashFree_cons : forall t ts,
    (forall t', In t' ts -> ~ clash t t') -> ClashFree ts ->
    ClashFree (t :: ts).

(** A request to add symbols: the text of the dialog, the two states and
    the identifier the new transition would get. *)
Record Request : Type := mkRequest {
  requestInput : jsstring;
  requestFrom : State;
  requestTo : State;
  requestId : Z
}.

(** A sequence of requests made to [BaseAutomaton.confirmTransition], the
    failing ones leaving the simulator as they found it. *)
Fixpoint confirmAll (rs : list Request) (sim : Sim) : Sim :=
  match rs with
  | [] => sim
  | r :: rest =>
      confirmAll rest
        (snd (Modular.confirmTransition (requestInput r) (requestFrom r)
                (requestTo r) None (requestId r) sim))
  end.

(** A symbol as both [confirmTransition]s handle it: a trimmed string
    without a comma. *)
Definition plainSymbol (c : jsstring) : Prop :=
  ~ In comma c /\ trim c = c.

(** Two transition objects with the same source state and the same
    symbol text. *)
Definition sameLabel (t t' : Transition) : Prop :=
  from t = from t' /\ symbol t = symbol t'.

(* ===================================================================== *)
(** * Concrete automata *)
(* ===================================================================== *)

Module Examples.

Definition q0 : State := mkState 0 false (str "q0").
Definition q1 : State := mkState 1 false (str "q1").
Definition q2 : State := mkState 2 true (str "q2").

Definition arrow (i : Z) (a b : State) (sym : jsstring) : Transition :=
  mkTransition i a b sym None None.

Definition automaton (ts : list Transition) (start : option State) : Sim :=
  mkSim [q0; q1; q2] ts start None None false [] [] (-1).

(** q0 --a--> q1 --b--> q2, q2 final. *)
Definition chain : Sim :=
  automaton [arrow 10 q0 q1 (str "a"); arrow 11 q1 q2 (str "b")] (Some q0).

(** The same automaton without a start state. *)
Definition chainNoStart : Sim :=
  automaton [arrow 10 q0 q1 (str "a"); arrow 11 q1 q2 (str "b")] None.

(** q0 --a--> q1 and q0 --b--> q2. *)
Definition fork : Sim :=
  automaton [arrow 10 q0 q1 (str "a"); arrow 11 q0 q2 (str "b")] (Some q0).

(** q0 --a--> q2 only: Scenario 3 of the specification. *)
Definition scenario3 : Sim :=
  automaton [arrow 10 q0 q2 (str "a")] (Some q0).

(** q0 --a--> q1 only. *)
Definition single : Sim :=
  automaton [arrow 10 q0 q1 (str "a")] (Some q0).



End Examples.

(* ===================================================================== *)
(** * baseAutomaton.js: the other editing methods *)
(* ===================================================================== *)

(** The simulator object together with its [stateCounter]. *)
Record Editor : Type := mkEditor {
  simulator : Sim;
  stateCounter : Z
}.

(** An integer inside a template literal (decimal digits, a minus sign for
    a negative one). *)
Definition numberToString (n : Z) : jsstring :=
  str (NilZero.string_of_int (Z.to_int n)).


(** What the constructor of [BaseAutomaton] sets up. *)
Definition newEditor : Editor :=
  mkEditor (mkSim [] [] None None None false [] [] (-1)) 0.

Module Base.

(** [BaseAutomaton.addState]; the result is the state returned and the
    editor afterwards. *)
Definition addState (e : Editor) : State * Editor :=
  let newId := stateCounter e in
  let counter := (stateCounter e + 1)%Z in
  let state := mkState newId false (str "q" ++ numberToString (counter - 1)) in
  let s1 := setStates (states (simulator e) ++ [state]) (simulator e) in
  let s2 := setSelectedState (Some state) s1 in
  let s3 := if (List.length (states s2) =? 1)%nat
            then setStartState (Some state) s2 else s2 in
  (state, mkEditor s3 counter).

(** [BaseAutomaton.deleteTransition] *)
Definition deleteTransition (sel : Transition) : M unit :=
  modify (fun s => setTransitions
            (updateFirst
               (fun t => (id (from t) =? id (to sel))%Z
                         && (id (to t) =? id (from sel))%Z
                         && match offset t with
                            | Some o => negb (o =? 0)%Z
                            | None => false
                            end)
               (fun t => mkTransition (tid t) (from t) (to t) (symbol t)
                                      (Some 0%Z) (Some 0%Z))
               (transitions s)) s) ;;
  modify (fun s => setTransitions
            (filter (fun t => negb (tid t =? tid sel)%Z) (transitions s)) s) ;;
  modify (setSelectedTransition None).

(** [BaseAutomaton.confirmDelete] *)
Definition confirmDelete : M unit :=
  selT <- gets selectedTransition ;;
  selS <- gets selectedState ;;
  match selT, selS with
  | Some t, _ => deleteTransition t
  | None, Some st => Modular.deleteState st
  | None, None => ret tt
  end.

(** [BaseAutomaton.resetDebug] *)
Definition resetDebug : M unit :=
  modify (setDebugMode false) ;;
  modify (setCurrentDebugStep (-1)) ;;
  modify (setDebugSteps []).

(** [BaseAutomaton.confirmClearAll] *)
Definition confirmClearAll (e : Editor) : Editor :=
  let s1 := setStates [] (simulator e) in
  let s2 := setTransitions [] s1 in
  let s3 := setSelectedState None s2 in
  let s4 := setSelectedTransition None s3 in
  let s5 := setStartState None s4 in
  mkEditor (snd (resetDebug s5)) 0.


(** [BaseAutomaton.setStartState]: [true] when a state was selected,
    [false] for the alert 'Please select a state first!'. *)
Definition setStartState : M bool :=
  sel <- gets selectedState ;;
  match sel with
  | Some st => modify (setStartState (Some st)) ;; ret true
  | None => ret false
  end.

End Base.

(* ===================================================================== *)
(** * dataManager.js: sanitizing, loading and exporting *)
(* ===================================================================== *)

Module DataManager.

(** The characters that the regular expression of [sanitizeString]
    removes: less-than, greater-than, apostrophe, quotation mark and
    ampersand. *)
Definition dangerous (u : N) : bool :=
  ((u =? 60) || (u =? 62) || (u =? 39) || (u =? 34) || (u =? 38))%N.

(** [sanitizeString(str, maxLength)] for a string and a length [>= 0]:
    [str.slice(0, maxLength)], then [replace] dropping every dangerous
    character, then [trim()]. *)
Definition sanitizeString (s : jsstring) (maxLength : nat) : jsstring :=
  trim (filter (fun u => negb (dangerous u)) (firstn maxLength s)).

(** One element of [automatonData.transitions].  A field that may be
    missing or falsy is an option. *)
Record TransitionData : Type := mkTransitionData {
  dataId : option Z;
  fromId : Z;
  toId : Z;
  dataSymbol : jsstring;
  dataOffset : option Z;
  dataOffsetDirection : option Z
}.

(** [automatonData]; an element of its [states] has the fields of a state
    object. *)
Record AutomatonData : Type := mkAutomatonData {
  dataStates : list State;
  dataTransitions : list TransitionData;
  startStateId : option Z;
  dataStateCounter : option Z
}.

(** What [validateAutomatonData] throws, for data of the types above. *)
Inductive LoadError : Type :=
| TooLarge (dataSize : Z)      (* `Automaton too large (${dataSize} bytes, ...)` *)
| InvalidSymbolAt (index : nat). (* `Transition ${index} has invalid symbol` *)

Definition MAX_DFA_SIZE : Z := 25000.

(** [v || 0] *)
Definition orZero (v : option Z) : Z :=
  match v with Some n => n | None => 0%Z end.

(** The index of the first transition whose [symbol] is falsy. *)
Fixpoint firstInvalidSymbol (index : nat) (tds : list TransitionData) : option nat :=
  match tds with
  | [] => None
  | td :: rest =>
      match dataSymbol td with
      | [] => Some index
      | _ => firstInvalidSymbol (S index) rest
      end
  end.

(** [validateAutomatonData(data)]; [dataSize] is
    [JSON.stringify(data).length]. *)
Definition validateAutomatonData (data : AutomatonData) (dataSize : Z)
  : LoadError + bool :=
  if (MAX_DFA_SIZE <? dataSize)%Z then inl (TooLarge dataSize)
  else match firstInvalidSymbol 0 (dataTransitions data) with
       | Some index => inl (InvalidSymbolAt index)
       | None => inr true
       end.

(** [stateMap]: [set] puts the binding in front, [get] finds the newest
    binding of the key. *)
Definition stateMapSet (k : Z) (v : State) (m : list (Z * State)) : list (Z * State) :=
  (k, v) :: m.

Definition stateMapGet (m : list (Z * State)) (k : Z) : option State :=
  match find (fun kv => (fst kv =? k)%Z) m with
  | Some kv => Some (snd kv)
  | None => None
  end.

(** The first [forEach] of the loader: the states pushed and the map. *)
Fixpoint restoreStates (sds : list State) (acc : list State) (m : list (Z * State))
  : list State * list (Z * State) :=
  match sds with
  | [] => (acc, m)
  | stateData :: rest =>
      let state := mkState (id stateData) (isFinal stateData) (label stateData) in
      restoreStates rest (acc ++ [state]) (stateMapSet (id stateData) state m)
  end.

(** The second [forEach]: a transition whose two states are in the map is
    pushed, the others are skipped.  [freshId index] is what
    [Date.now() + Math.random()] yields for the transition at [index]. *)
Fixpoint restoreTransitions (m : list (Z * State)) (freshId : nat -> Z)
  (index : nat) (tds : list TransitionData) (acc : list Transition)
  : list Transition :=
  match tds with
  | [] => acc
  | td :: rest =>
      match stateMapGet m (fromId td), stateMapGet m (toId td) with
      | Some fromState, Some toState =>
          let newId := match dataId td with
                       | Some v => if (v =? 0)%Z then freshId index else v
                       | None => freshId index
                       end in
          restoreTransitions m freshId (S index) rest
            (acc ++ [mkTransition newId fromState toState (dataSymbol td)
                                  (Some (orZero (dataOffset td)))
                                  (Some (orZero (dataOffsetDirection td)))])
      | _, _ => restoreTransitions m freshId (S index) rest acc
      end
  end.

(** [loadAutomatonIntoSimulator(automatonData, simulator)]: the error
    rethrown, if any, and the editor afterwards. *)
Definition loadAutomatonIntoSimulator (data : AutomatonData) (dataSize : Z)
  (freshId : nat -> Z) (e : Editor) : option LoadError * Editor :=
  match validateAutomatonData data dataSize with
  | inl err => (Some err, e)
  | inr _ =>
      let s1 := setStates [] (simulator e) in
      let s2 := setTransitions [] s1 in
      let s3 := setSelectedState None s2 in
      let s4 := setSelectedTransition None s3 in
      let s5 := setStartState None s4 in
      let s6 := snd (Base.resetDebug s5) in
      let (restored, stateMap) := restoreStates (dataStates data) (states s6) [] in
      let s7 := setStates restored s6 in
      let s8 := setTransitions
                  (restoreTransitions stateMap freshId 0 (dataTransitions data)
                                      (transitions s7)) s7 in
      let s9 := match startStateId data with
                | Some k => setStartState (stateMapGet stateMap k) s8
                | None => s8
                end in
      (None,
       mkEditor s9 (Z.max (orZero (dataStateCounter data))
                          (Z.of_nat (List.length (states s9)))))
  end.

(** The object that [encodeAutomatonToURL] and [exportDFA] build from the
    simulator. *)
Definition automatonDataOf (e : Editor) : AutomatonData :=
  mkAutomatonData
    (map (fun st => mkState (id st) (isFinal st) (label st))
         (states (simulator e)))
    (map (fun t => mkTransitionData (Some (tid t)) (id (from t)) (id (to t))
                     (symbol t) (Some (orZero (offset t)))
                     (Some (orZero (offsetDirection t))))
         (transitions (simulator e)))
    (match startState (simulator e) with
     | Some st => Some (id st)
     | None => None
     end)
    (Some (stateCounter e)).

(** [exportDFA] of main.js up to the serialisation: nothing is exported
    ([None], the notification 'No DFA to export') without states. *)
Definition exportDFA (e : Editor) : option AutomatonData :=
  if (List.length (states (simulator e)) =? 0)%nat then None
  else Some (automatonDataOf e).

End DataManager.

(* ===================================================================== *)
(** * Invariants of the automaton under edition *)
(* ===================================================================== *)









(** The final state of the loop of [simulateInput], when the whole input
    is consumed. *)
Fixpoint reached (ts : list Transition) (currentState : State)
  (input : list jsstring) : option State :=
  match input with
  | [] => Some currentState
  | c :: rest =>
      match find (matches currentState c) ts with
      | None => None
      | Some t => reached ts (to t) rest
      end
  end.

(** The states as JavaScript has them: objects in a store, shared by
    [this.states], by the [from] and [to] of the transitions, by
    [this.startState], [this.selectedState] and [this.pendingRenameState].
    A reference is the position of the object in the store.  The methods
    that assign to a field of a state object are modelled here; [view]
    reads the store back into the records used above. *)
Module Shared.

Definition Ref : Type := nat.

Record Arrow : Type := mkArrow {
  aid : Z;
  afrom : Ref;
  ato : Ref;
  asymbol : jsstring;
  aoffset : option Z;
  aoffsetDirection : option Z
}.

Record Store : Type := mkStore {
  objects : list State;
  stateRefs : list Ref;
  arrows : list Arrow;
  startRef : option Ref;
  selectedRef : option Ref;
  pendingRenameState : option Ref
}.

Definition deref (st : Store) (r : Ref) : State :=
  nth r (objects st) (mkState 0 false []).

Definition setObject (r : Ref) (f : State -> State) (st : Store) : Store :=
  mkStore (updateAt r f (objects st)) (stateRefs st) (arrows st)
          (startRef st) (selectedRef st) (pendingRenameState st).

(** [BaseAutomaton.toggleFinalState]: [true] when a state was selected,
    [false] for the alert 'Please select a state first!'. *)
Definition toggleFinalState (st : Store) : bool * Store :=
  match selectedRef st with
  | Some r =>
      (true, setObject r (fun q => mkState (id q) (negb (isFinal q)) (label q)) st)
  | None => (false, st)
  end.

(** [BaseAutomaton.renameState] *)
Definition renameState (r : Ref) (st : Store) : Store :=
  mkStore (objects st) (stateRefs st) (arrows st)
          (startRef st) (selectedRef st) (Some r).

(** [BaseAutomaton.confirmRename]; [renameInput] is the text of the
    dialog. *)
Definition confirmRename (renameInput : jsstring) (st : Store) : Store :=
  let newName := trim renameInput in
  match newName, pendingRenameState st with
  | _ :: _, Some r =>
      setObject r (fun q => mkState (id q) (isFinal q) newName) st
  | _, _ => st
  end.

Definition symbolsOf (a : Arrow) : list jsstring :=
  map trim (split comma (asymbol a)).

(** The lookup of [simulateInput], with the current state and the ends of
    the transitions as references. *)
Definition matches (st : Store) (currentState : Ref) (c : jsstring)
  (a : Arrow) : bool :=
  if negb (id (deref st (afrom a)) =? id (deref st currentState))%Z then false
  else includes (symbolsOf a) c.

Fixpoint simulateLoop (st : Store) (currentState : Ref)
  (input : list jsstring) : bool :=
  match input with
  | [] => isFinal (deref st currentState)
  | c :: rest =>
      match find (matches st currentState c) (arrows st) with
      | None => false
      | Some a => simulateLoop st (ato a) rest
      end
  end.

(** [DFASimulator.simulateInput] on the store. *)
Definition simulateInput (st : Store) (input : jsstring) : bool :=
  match startRef st with
  | None => false
  | Some s => simulateLoop st s (codePoints input)
  end.

(** The object in which the loop of [simulateInput] ends, when the whole
    input is consumed. *)
Fixpoint endOfLoop (st : Store) (currentState : Ref)
  (input : list jsstring) : option Ref :=
  match input with
  | [] => Some currentState
  | c :: rest =>
      match find (matches st currentState c) (arrows st) with
      | None => None
      | Some a => endOfLoop st (ato a) rest
      end
  end.

Definition endsIn (st : Store) (r : Ref) (input : jsstring) : bool :=
  match startRef st with
  | None => false
  | Some s =>
      match endOfLoop st s (codePoints input) with
      | Some e => (e =? r)%nat
      | None => false
      end
  end.

Definition viewArrow (st : Store) (a : Arrow) : Transition :=
  mkTransition (aid a) (deref st (afrom a)) (deref st (ato a)) (asymbol a)
               (aoffset a) (aoffsetDirection a).

(** The simulator that the store holds, with the debugger as the
    constructor leaves it. *)
Definition view (st : Store) : Sim :=
  mkSim (map (deref st) (stateRefs st)) (map (viewArrow st) (arrows st))
        (option_map (deref st) (startRef st))
        (option_map (deref st) (selectedRef st))
        None false [] [] (-1).

End Shared.

(** Where a click moves the debugger in a trace of [len] steps: one step
    forwards or backwards, stopping at the last and at the first step. *)
Definition moved (len : Z) (i : Z) (c : Click) : Z :=
  match c with
  | Next => Z.min (i + 1) (len - 1)
  | Prev => Z.max (i - 1) 0
  end.



Module SavedExamples.



End SavedExamples.

(** What identifies a transition apart from its layout. *)
Definition labelled (t : Transition) : Z * State * State * jsstring :=
  (tid t, from t, to t, symbol t).


(* ===================================================================== *)
(** * Facts about the string primitives *)
(* ===================================================================== *)

Lemma seqb_eq (a b : jsstring) : seqb a b = true <-> a = b.
Proof.
  revert b. induction a as [|u a IH]; intros [|v b]; simpl; split;
    try congruence; try reflexivity.
  - intros H. apply andb_true_iff in H as [Huv Hab].
    apply N.eqb_eq in Huv. apply IH in Hab. congruence.
  - intros H. injection H as -> ->. apply andb_true_iff. split.
    + apply N.eqb_refl.
    + apply IH. reflexivity.
Qed.

Lemma seqb_refl (a : jsstring) : seqb a a = true.
Proof. apply seqb_eq. reflexivity. Qed.

Lemma seqb_neq (a b : jsstring) : seqb a b = false <-> a <> b.
Proof.
  split.
  - intros H E. apply seqb_eq in E. congruence.
  - intros H. destruct (seqb a b) eqn:E; [|reflexivity].
    apply seqb_eq in E. contradiction.
Qed.

Lemma includes_In (l : list jsstring) (x : jsstring) :
  includes l x = true <-> In x l.
Proof.
  unfold includes. rewrite existsb_exists. split.
  - intros (y & Hy & E). apply seqb_eq in E. subst. exact Hy.
  - intros H. exists x. split; [exact H | apply seqb_refl].
Qed.

Lemma includes_not_In (l : list jsstring) (x : jsstring) :
  includes l x = false <-> ~ In x l.
Proof.
  rewrite <- includes_In. destruct (includes l x); split; congruence.
Qed.

(** [find] returns the first element that satisfies the predicate. *)
Lemma find_first {A} (p : A -> bool) (l : list A) (x : A) :
  find p l = Some x <->
  exists pre post, l = pre ++ x :: post /\ p x = true /\
                   forall y, In y pre -> p y = false.
Proof.
  split.
  - induction l as [|y l IH]; simpl; [discriminate|].
    destruct (p y) eqn:Hy.
    + intros [= ->]. exists [], l. repeat split; [exact Hy | intros ? []].
    + intros H. destruct (IH H) as (pre & post & -> & Hx & Hpre).
      exists (y :: pre), post. repeat split; [exact Hx|].
      intros z [<- | Hz]; [exact Hy | apply Hpre, Hz].
  - intros (pre & post & -> & Hx & Hpre).
    induction pre as [|y pre IH]; simpl.
    + rewrite Hx. reflexivity.
    + rewrite (Hpre y (or_introl eq_refl)). apply IH.
      intros z Hz. apply Hpre. right. exact Hz.
Qed.

Lemma find_absent {A} (p : A -> bool) (l : list A) :
  find p l = None <-> forall y, In y l -> p y = false.
Proof.
  split.
  - intros H y Hy. exact (find_none p l H y Hy).
  - intros H. induction l as [|y l IH]; simpl; [reflexivity|].
    rewrite (H y (or_introl eq_refl)). apply IH.
    intros z Hz. apply H. right. exact Hz.
Qed.

(* ===================================================================== *)
(** * Single-symbol lookup and the acceptance walk *)
(* ===================================================================== *)

Lemma matches_spec (cur : State) (c : jsstring) (t : Transition) :
  matches cur c t = true <-> id (from t) = id cur /\ carries t c.
Proof.
  unfold matches, carries.
  destruct (Z.eqb_spec (id (from t)) (id cur)) as [E|E]; simpl.
  - rewrite includes_In. tauto.
  - split; [discriminate | tauto].
Qed.

Lemma matches_false (cur : State) (c : jsstring) (t : Transition) :
  matches cur c t = false <-> ~ (id (from t) = id cur /\ carries t c).
Proof.
  rewrite <- matches_spec. destruct (matches cur c t); split; congruence.
Qed.

Lemma carriesFrom_matches (cur : State) (c : jsstring) (t : Transition) :
  carriesFrom cur c t = matches cur c t.
Proof.
  unfold carriesFrom, matches.
  destruct (id (from t) =? id cur)%Z; reflexivity.
Qed.

(** The [find] of the sources is the lookup of the specification. *)
Lemma find_FirstMatch (ts : list Transition) (cur : State) (c : jsstring)
  (t : Transition) :
  find (matches cur c) ts = Some t <-> FirstMatch ts cur c t.
Proof.
  rewrite find_first. unfold FirstMatch. split.
  - intros (pre & post & E & Ht & Hpre). exists pre, post.
    apply matches_spec in Ht as [H1 H2]. repeat split; try assumption.
    intros t' Ht'. apply matches_false. apply Hpre, Ht'.
  - intros (pre & post & E & H1 & H2 & Hpre). exists pre, post.
    split; [exact E|]. split; [apply matches_spec; tauto|].
    intros y Hy. apply matches_false. apply Hpre, Hy.
Qed.

Lemma find_NoMatch (ts : list Transition) (cur : State) (c : jsstring) :
  find (matches cur c) ts = None <-> NoMatch ts cur c.
Proof.
  rewrite find_absent. unfold NoMatch.
  split; intros H t Ht; apply matches_false, H, Ht.
Qed.

Lemma simulateLoop_Walk (ts : list Transition) (input : list jsstring) :
  forall s s', Walk ts s input s' -> simulateLoop ts s input = isFinal s'.
Proof.
  induction input as [|c rest IH]; intros s s' W; inversion W; subst; simpl.
  - reflexivity.
  - match goal with H : FirstMatch _ _ _ _ |- _ =>
      apply find_FirstMatch in H; rewrite H end.
    apply IH. assumption.
Qed.

Lemma simulateLoop_stuck (ts : list Transition) (pre : list jsstring) :
  forall s s1 c post,
    Walk ts s pre s1 -> NoMatch ts s1 c ->
    simulateLoop ts s (pre ++ c :: post) = false.
Proof.
  induction pre as [|d pre IH]; intros s s1 c post W N; inversion W; subst; simpl.
  - apply find_NoMatch in N. rewrite N. reflexivity.
  - match goal with H : FirstMatch _ _ _ _ |- _ =>
      apply find_FirstMatch in H; rewrite H end.
    eapply IH; eassumption.
Qed.

(** Every input is either walked to its end or stops at a first character
    that has no transition. *)
Lemma Walk_or_stuck (ts : list Transition) (input : list jsstring) :
  forall s,
    (exists s', Walk ts s input s') \/
    (exists pre c post s1,
        input = pre ++ c :: post /\ Walk ts s pre s1 /\ NoMatch ts s1 c).
Proof.
  induction input as [|c rest IH]; intros s.
  - left. exists s. constructor.
  - destruct (find (matches s c) ts) as [t|] eqn:F.
    + apply find_FirstMatch in F.
      destruct (IH (to t)) as [(s' & W) | (pre & d & post & s1 & -> & W & N)].
      * left. exists s'. econstructor; eassumption.
      * right. exists (c :: pre), d, post, s1. repeat split; [|exact N].
        econstructor; eassumption.
    + apply find_NoMatch in F. right. exists [], c, rest, s.
      repeat split; [constructor | exact F].
Qed.

(** C1.  [simulateInput] (the [accepts] of the specification) is false when
    there is no start state; on the empty input it is [startState.isFinal];
    otherwise it walks from the start state, one character of the input
    at a time, through the first transition that leaves the current state
    and carries the character in its comma-separated symbols: if the walk
    consumes the whole input it returns [isFinal] of the state reached, and
    as soon as a character has no such transition it returns false.  One of
    the two always happens. *)
Theorem simulateInput_walks (sim : Sim) (input : jsstring) :
  (startState sim = None -> simulateInput sim input = false) /\
  (forall s0, startState sim = Some s0 ->
     simulateInput sim [] = isFinal s0 /\
     (forall s', Walk (transitions sim) s0 (codePoints input) s' ->
                 simulateInput sim input = isFinal s') /\
     (forall pre c post s1,
         codePoints input = pre ++ c :: post ->
         Walk (transitions sim) s0 pre s1 ->
         NoMatch (transitions sim) s1 c ->
         simulateInput sim input = false) /\
     ((exists s', Walk (transitions sim) s0 (codePoints input) s') \/
      (exists pre c post s1,
          codePoints input = pre ++ c :: post /\
          Walk (transitions sim) s0 pre s1 /\
          NoMatch (transitions sim) s1 c))).
Proof.
  unfold simulateInput. split.
  - intros ->. reflexivity.
  - intros s0 ->. repeat split.
    + intros s' W. apply simulateLoop_Walk. exact W.
    + intros pre c post s1 E W N. rewrite E.
      eapply simulateLoop_stuck; eassumption.
    + apply Walk_or_stuck.
Qed.

Lemma simulateInput_walks_witness :
  simulateInput Examples.chainNoStart (str "ab") = false /\
  simulateInput Examples.chain [] = isFinal Examples.q0.
Proof.
  split.
  - exact (proj1 (simulateInput_walks Examples.chainNoStart (str "ab")) eq_refl).
  - exact (proj1 (proj2 (simulateInput_walks Examples.chain (str "ab"))
                        Examples.q0 eq_refl)).
Defined.

(* ===================================================================== *)
(** * The step trace *)
(* ===================================================================== *)

(** What the loop of [startStepDebug] leaves behind, compared with the loop
    of [simulateInput] run on the same units: either its last step is a
    rejection and [simulateInput]'s loop returns false, or no step is a
    rejection and [simulateInput]'s loop returns [isFinal] of the state the
    debugger's loop ends in. *)
Lemma debugLoop_verdict (ts : list Transition) (input : jsstring) :
  forall rest i cur steps fin,
    debugLoop ts input i rest cur = (steps, fin) ->
    (exists pre st, steps = pre ++ [st] /\ rejected st = Some true /\
                    final st = None /\
                    simulateLoop ts cur (units rest) = false) \/
    (Forall (fun st => rejected st = None) steps /\
     simulateLoop ts cur (units rest) = isFinal fin).
Proof.
  induction rest as [|u rest IH]; intros i cur steps fin; simpl.
  - intros [= <- <-]. right. split; [constructor | reflexivity].
  - destruct (find (matches cur [u]) ts) as [t|] eqn:F.
    + destruct (debugLoop ts input (S i) rest (to t)) as [steps' fin'] eqn:D.
      intros [= <- <-].
      destruct (IH _ _ _ _ D) as [(pre & st & -> & R & Fn & S) | [A S]].
      * left. exists (movedStep i cur t [u] input :: pre), st.
        repeat split; assumption.
      * right. split; [constructor; [reflexivity | exact A] | exact S].
    + intros [= <- <-]. left. exists [], (rejectedStep i cur [u] input).
      repeat split.
Qed.

(** The transitions recorded by the debugger's loop are those the loop of
    [simulateInput] takes on the same units, in the same order, and every
    step that records a transition records its target as the state. *)
Lemma debugLoop_visited (ts : list Transition) (input : jsstring) :
  forall rest i cur steps fin,
    debugLoop ts input i rest cur = (steps, fin) ->
    recordedTransitions steps = visited ts cur (units rest) /\
    Forall (fun st => forall t, transition st = Some t -> state st = to t) steps.
Proof.
  induction rest as [|u rest IH]; intros i cur steps fin; simpl.
  - intros [= <- <-]. split; [reflexivity | constructor].
  - destruct (find (matches cur [u]) ts) as [t|] eqn:F.
    + destruct (debugLoop ts input (S i) rest (to t)) as [steps' fin'] eqn:D.
      intros [= <- <-]. destruct (IH _ _ _ _ D) as [V A]. split.
      * simpl. rewrite V. reflexivity.
      * constructor; [|exact A]. simpl. intros t' [= <-]. reflexivity.
    + intros [= <- <-]. split; [reflexivity|].
      constructor; [|constructor]. simpl. discriminate.
Qed.

Lemma last_Forall {A} (P : A -> Prop) (l : list A) (d : A) :
  P d -> Forall P l -> P (last l d).
Proof.
  intros Hd H. induction H as [|x l Hx Hl IH]; simpl; [exact Hd|].
  destruct l; [exact Hx | exact IH].
Qed.

Lemma lastVerdict_snoc (l : list Step) (st : Step) :
  lastVerdict (l ++ [st]) = truthy (final st) && truthy (accepted st).
Proof. unfold lastVerdict. rewrite rev_app_distr. reflexivity. Qed.

(** Read unit by unit, the two evaluators agree: the verdict of the last
    generated step is what the loop of [simulateInput] returns. *)
Lemma generateSteps_verdict (ts : list Transition) (s0 : State) (input : jsstring) :
  lastVerdict (generateSteps ts s0 input) = simulateLoop ts s0 (units input).
Proof.
  unfold generateSteps.
  destruct (debugLoop ts input 0 input s0) as [steps fin] eqn:D.
  destruct (debugLoop_verdict _ _ _ _ _ _ _ D) as [(pre & st & -> & R & Fn & S) | [A S]].
  - rewrite app_comm_cons, last_last, R. simpl.
    rewrite app_comm_cons, lastVerdict_snoc, Fn, S. reflexivity.
  - assert (L : rejected (last (initialStep s0 input :: steps)
                               (initialStep s0 input)) = None).
    { apply (last_Forall (fun st => rejected st = None)); [reflexivity|].
      constructor; [reflexivity | exact A]. }
    rewrite L. simpl negb. cbv iota.
    rewrite lastVerdict_snoc, S. simpl. destruct (isFinal fin); reflexivity.
Qed.

(** An input without a high surrogate is iterated by [for ... of] unit by
    unit. *)
Lemma codePoints_units (input : jsstring) :
  forallb (fun u => negb (isHighSurrogate u)) input = true ->
  codePoints input = units input.
Proof.
  induction input as [|u r IH]; simpl; [reflexivity|].
  intros H. apply andb_true_iff in H as [Hu Hr].
  apply negb_true_iff in Hu. rewrite Hu. simpl.
  destruct r as [|v r']; [reflexivity|].
  rewrite (IH Hr). reflexivity.
Qed.

(** On every input that [for ... of] iterates unit by unit, [simulateInput]
    returns the verdict of the last step of the trace, and the trace
    records the transitions [simulateInput] takes. *)
Lemma trace_agrees_unitwise (sim : Sim) (s0 : State) (input : jsstring) :
  startState sim = Some s0 ->
  codePoints input = units input ->
  exists steps,
    trace sim input = Some steps /\
    simulateInput sim input = lastVerdict steps /\
    recordedTransitions steps = visited (transitions sim) s0 (codePoints input).
Proof.
  intros Hs Hu. unfold trace, simulateInput. rewrite Hs, Hu.
  eexists. split; [reflexivity|]. split.
  - symmetry. apply generateSteps_verdict.
  - unfold generateSteps.
    destruct (debugLoop (transitions sim) input 0 input s0) as [steps fin] eqn:D.
    destruct (debugLoop_visited _ _ _ _ _ _ _ D) as [V _].
    destruct (negb _); unfold recordedTransitions in *; simpl.
    + rewrite flat_map_app. simpl. rewrite app_nil_r. exact V.
    + exact V.
Qed.


(** Scenario 4 as worded fails: on q0 --a--> q1 --b--> q2 with q2 final,
    the input "ab" is accepted, and its trace is not a three-step trace. *)
Lemma trace_of_two_characters_is_not_three_steps :
  startState Examples.chain = Some Examples.q0 /\
  List.length (str "ab") = 2%nat /\
  simulateInput Examples.chain (str "ab") = true /\
  ~ threeStepTrace Examples.chain (str "ab").
Proof.
  repeat split.
  intros (st0 & st1 & st2 & H & _). vm_compute in H. discriminate H.
Qed.

(** C7 (amended).  For an automaton with a start state and a two-character
    input that is consumed along an accepting path, the trace has exactly
    four steps, with indices 0, 1, 2 and 3: step 0 is the start state, with
    no character and no transition; steps 1 and 2 are the two moves and
    carry no final flag; step 3, the last one, repeats the state reached,
    has no character and no transition, and carries [final = true] and
    [accepted = true]. *)
Theorem trace_of_two_characters (sim : Sim) (s0 sf : State) (u1 u2 : N) :
  startState sim = Some s0 ->
  Walk (transitions sim) s0 (units [u1; u2]) sf ->
  isFinal sf = true ->
  exists st0 st1 st2 st3,
    trace sim [u1; u2] = Some [st0; st1; st2; st3] /\
    map step [st0; st1; st2; st3] = [0; 1; 2; 3]%Z /\
    state st0 = s0 /\ char st0 = None /\ transition st0 = None /\
    char st1 = Some [u1] /\ char st2 = Some [u2] /\
    Walk (transitions sim) s0 [[u1]] (state st1) /\
    state st2 = sf /\ state st3 = sf /\
    char st3 = None /\ transition st3 = None /\
    map final [st0; st1; st2; st3] = [None; None; None; Some true] /\
    map rejected [st0; st1; st2; st3] = [None; None; None; None] /\
    accepted st3 = Some true.
Proof.
  intros Hs W Hf. simpl in W.
  inversion W as [|? ? t1 ? ? M1 W1]; subst.
  inversion W1 as [|? ? t2 ? ? M2 W2]; subst.
  inversion W2; subst.
  pose proof M1 as F1. pose proof M2 as F2.
  apply find_FirstMatch in F1, F2.
  unfold trace, generateSteps. rewrite Hs.
  cbn [debugLoop]. rewrite F1. cbn [debugLoop]. rewrite F2. cbn [debugLoop].
  simpl.
  do 4 eexists. split; [reflexivity|]. simpl. rewrite Hf.
  repeat split.
  econstructor; [exact M1 | constructor].
Qed.

Lemma trace_of_two_characters_witness :
  exists st0 st1 st2 st3,
    trace Examples.chain (str "ab") = Some [st0; st1; st2; st3] /\
    map step [st0; st1; st2; st3] = [0; 1; 2; 3]%Z /\
    final st3 = Some true.
Proof.
  assert (W : Walk (transitions Examples.chain) Examples.q0
                   (units [97%N; 98%N]) Examples.q2).
  { eapply Walk_move with (t := Examples.arrow 10 Examples.q0 Examples.q1 (str "a")).
    - apply find_FirstMatch. reflexivity.
    - eapply Walk_move with (t := Examples.arrow 11 Examples.q1 Examples.q2 (str "b")).
      + apply find_FirstMatch. reflexivity.
      + apply Walk_done. }
  destruct (trace_of_two_characters Examples.chain Examples.q0 Examples.q2
              97%N 98%N eq_refl W eq_refl)
    as (st0 & st1 & st2 & st3 & H1 & H2 & H3).
  exists st0, st1, st2, st3. split; [exact H1|]. split; [exact H2|].
  destruct H3 as (_ & _ & _ & _ & _ & _ & _ & _ & _ & _ & H & _).
  injection H as _ _ _ H. exact H.
Defined.

(* ===================================================================== *)
(** * The step debugger *)
(* ===================================================================== *)

Lemma generateSteps_nonempty (ts : list Transition) (s0 : State) (input : jsstring) :
  exists rest, generateSteps ts s0 input = initialStep s0 input :: rest.
Proof.
  unfold generateSteps.
  destruct (debugLoop ts input 0 input s0) as [steps fin].
  destruct (negb _); eexists; simpl; reflexivity.
Qed.

Lemma setCurrentDebugStep_same (sim : Sim) :
  setCurrentDebugStep (currentDebugStep sim) sim = sim.
Proof. destruct sim. reflexivity. Qed.

Lemma setCurrentDebugStep_twice (a b : Z) (sim : Sim) :
  setCurrentDebugStep a (setCurrentDebugStep b sim) = setCurrentDebugStep a sim.
Proof. reflexivity. Qed.

Lemma updateDebugDisplay_in_bounds (sim : Sim) :
  InBounds sim -> updateDebugDisplay sim = (Ret tt, sim).
Proof.
  unfold InBounds, updateDebugDisplay, bind, gets. intros [Hlo Hhi].
  destruct (Z.ltb_spec (currentDebugStep sim) 0); [lia|].
  destruct (nth_error (debugSteps sim) (Z.to_nat (currentDebugStep sim))) eqn:E;
    [reflexivity|].
  apply nth_error_None in E. lia.
Qed.

(** [stepNext] moves one step forward inside the trace and is a no-op on
    its last step. *)
Lemma stepNext_in_bounds (sim : Sim) :
  InBounds sim ->
  exists k,
    stepNext sim = (Ret tt, setCurrentDebugStep k sim) /\
    InBounds (setCurrentDebugStep k sim) /\
    (currentDebugStep sim = (Z.of_nat (List.length (debugSteps sim)) - 1)%Z ->
     k = currentDebugStep sim).
Proof.
  intros B. unfold stepNext, bind, gets, modify.
  destruct (Z.ltb_spec (currentDebugStep sim)
                       (Z.of_nat (List.length (debugSteps sim)) - 1)) as [L|L].
  - exists (currentDebugStep sim + 1)%Z.
    assert (B' : InBounds (setCurrentDebugStep (currentDebugStep sim + 1) sim)).
    { unfold InBounds in *. simpl. lia. }
    rewrite (updateDebugDisplay_in_bounds _ B').
    repeat split; try apply B'. lia.
  - exists (currentDebugStep sim). rewrite setCurrentDebugStep_same.
    repeat split; apply B.
Qed.

(** [stepPrev] moves one step back inside the trace and is a no-op on
    step 0. *)
Lemma stepPrev_in_bounds (sim : Sim) :
  InBounds sim ->
  exists k,
    stepPrev sim = (Ret tt, setCurrentDebugStep k sim) /\
    InBounds (setCurrentDebugStep k sim) /\
    (currentDebugStep sim = 0%Z -> k = currentDebugStep sim).
Proof.
  intros B. unfold stepPrev, bind, gets, modify.
  destruct (Z.ltb_spec 0 (currentDebugStep sim)) as [L|L].
  - exists (currentDebugStep sim - 1)%Z.
    assert (B' : InBounds (setCurrentDebugStep (currentDebugStep sim - 1) sim)).
    { unfold InBounds in *. simpl. lia. }
    rewrite (updateDebugDisplay_in_bounds _ B').
    repeat split; try apply B'. lia.
  - exists (currentDebugStep sim). rewrite setCurrentDebugStep_same.
    repeat split; apply B.
Qed.

Lemma runClicks_in_bounds (cs : list Click) :
  forall sim, InBounds sim ->
    exists k, runClicks cs sim = (Ret tt, setCurrentDebugStep k sim) /\
              InBounds (setCurrentDebugStep k sim).
Proof.
  induction cs as [|c cs IH]; intros sim B.
  - exists (currentDebugStep sim). rewrite setCurrentDebugStep_same.
    split; [reflexivity | exact B].
  - assert (H : exists k, click c sim = (Ret tt, setCurrentDebugStep k sim) /\
                          InBounds (setCurrentDebugStep k sim)).
    { destruct c; simpl.
      - destruct (stepNext_in_bounds _ B) as (k & E & B' & _). eauto.
      - destruct (stepPrev_in_bounds _ B) as (k & E & B' & _). eauto. }
    destruct H as (k & E & B').
    destruct (IH _ B') as (k' & E' & B'').
    exists k'. unfold runClicks in *. simpl. unfold bind at 1. rewrite E.
    rewrite E'. rewrite setCurrentDebugStep_twice in *. split; [reflexivity | exact B''].
Qed.

Lemma startStepDebug_builds (sim : Sim) (s0 : State) (testInput : jsstring) :
  startState sim = Some s0 ->
  exists sim',
    startStepDebug testInput sim = (Ret Completed, sim') /\
    debugSteps sim' = generateSteps (transitions sim) s0 (trim testInput) /\
    currentDebugStep sim' = 0%Z /\
    states sim' = states sim /\ transitions sim' = transitions sim /\
    startState sim' = startState sim.
Proof.
  intros Hs.
  destruct (generateSteps_nonempty (transitions sim) s0 (trim testInput)) as [rest E].
  unfold startStepDebug, updateDebugDisplay, bind, gets, modify. rewrite Hs.
  cbn -[generateSteps trim]. rewrite E. cbn -[generateSteps trim].
  eexists. split; [reflexivity|]. cbn -[generateSteps trim].
  repeat split; try assumption; symmetry; assumption.
Qed.

(** C10.  Once [startStepDebug] has built a trace (of [n >= 1] steps, the
    current step being 0), every sequence of [stepNext] and [stepPrev]
    returns without an error, changes nothing of the simulator but the
    current step index, and leaves that index between 0 and [n - 1]; in
    every state so reached, [stepNext] on the last step and [stepPrev] on
    step 0 return with the simulator unchanged. *)
Theorem debugger_stays_in_bounds (sim : Sim) (s0 : State) (testInput : jsstring)
  (cs : list Click) :
  startState sim = Some s0 ->
  exists sim' sim'',
    startStepDebug testInput sim = (Ret Completed, sim') /\
    (1 <= Z.of_nat (List.length (debugSteps sim')))%Z /\
    currentDebugStep sim' = 0%Z /\
    runClicks cs sim' = (Ret tt, sim'') /\
    sim'' = setCurrentDebugStep (currentDebugStep sim'') sim' /\
    (0 <= currentDebugStep sim''
       <= Z.of_nat (List.length (debugSteps sim')) - 1)%Z /\
    (currentDebugStep sim'' = (Z.of_nat (List.length (debugSteps sim')) - 1)%Z ->
     stepNext sim'' = (Ret tt, sim'')) /\
    (currentDebugStep sim'' = 0%Z -> stepPrev sim'' = (Ret tt, sim'')).
Proof.
  intros Hs.
  destruct (startStepDebug_builds sim s0 testInput Hs)
    as (sim' & E & Hsteps & Hcur & _).
  destruct (generateSteps_nonempty (transitions sim) s0 (trim testInput)) as [rest G].
  assert (Hlen : (1 <= Z.of_nat (List.length (debugSteps sim')))%Z).
  { rewrite Hsteps, G. simpl. lia. }
  assert (B : InBounds sim') by (unfold InBounds; lia).
  destruct (runClicks_in_bounds cs _ B) as (k & R & B').
  exists sim', (setCurrentDebugStep k sim').
  repeat split; try assumption; try apply B'.
  - intros Hk. destruct (stepNext_in_bounds _ B') as (k' & N & _ & K).
    rewrite N, (K Hk). apply f_equal, setCurrentDebugStep_same.
  - intros Hk. destruct (stepPrev_in_bounds _ B') as (k' & N & _ & K).
    rewrite N, (K Hk). apply f_equal, setCurrentDebugStep_same.
Qed.

Lemma debugger_stays_in_bounds_witness :
  exists sim' sim'',
    startStepDebug (str "ab") Examples.chain = (Ret Completed, sim') /\
    runClicks [Next; Next; Next; Next; Next; Prev] sim' = (Ret tt, sim'') /\
    (0 <= currentDebugStep sim''
       <= Z.of_nat (List.length (debugSteps sim')) - 1)%Z.
Proof.
  destruct (debugger_stays_in_bounds Examples.chain Examples.q0 (str "ab")
              [Next; Next; Next; Next; Next; Prev] eq_refl)
    as (sim' & sim'' & H1 & _ & _ & H2 & _ & H3 & _).
  exists sim', sim''. repeat split; try assumption; apply H3.
Defined.

(* ===================================================================== *)
(** * Deleting a state *)
(* ===================================================================== *)

(** What [deleteState] computes, by identifiers as the source compares
    them. *)
Lemma deleteState_by_id (sim : Sim) (st : State) :
  exists sim',
    Modular.deleteState st sim = (Ret tt, sim') /\
    states sim' = filter (fun q => negb (id q =? id st)%Z) (states sim) /\
    transitions sim' =
      filter (fun t => negb (id (from t) =? id st)%Z
                       && negb (id (to t) =? id st)%Z) (transitions sim) /\
    startState sim' =
      match startState sim with
      | Some q => if (id q =? id st)%Z then None else Some q
      | None => None
      end /\
    selectedState sim' = None /\
    selectedTransition sim' = selectedTransition sim /\
    debugMode sim' = debugMode sim /\ debugString sim' = debugString sim /\
    debugSteps sim' = debugSteps sim /\
    currentDebugStep sim' = currentDebugStep sim.
Proof.
  unfold Modular.deleteState, bind, gets, modify. simpl.
  destruct (startState sim) as [q|] eqn:Hq; simpl.
  - destruct (id q =? id st)%Z eqn:E; simpl; eexists; (split; [reflexivity|]);
      simpl; rewrite ?Hq, ?E; repeat split.
  - eexists; (split; [reflexivity|]); simpl; rewrite ?Hq; repeat split.
Qed.

(** main.js's [confirmDelete], with a state selected and no transition
    selected, is [deleteState] of that state. *)
Lemma confirmDelete_is_deleteState (sim : Sim) (st : State) :
  selectedTransition sim = None ->
  selectedState sim = Some st ->
  Monolith.confirmDelete sim = Modular.deleteState st sim.
Proof.
  intros HT HS. unfold Monolith.confirmDelete, Modular.deleteState.
  unfold bind at 1 2. unfold gets at 1 2. rewrite HT, HS. reflexivity.
Qed.

Lemma same_id_same_state (l : list State) (p q : State) :
  NoDup (map id l) -> In p l -> In q l -> id p = id q -> p = q.
Proof.
  induction l as [|x l IH]; simpl; [intros _ []|].
  intros ND Hp Hq E. inversion ND as [|? ? Hx ND']; subst.
  destruct Hp as [<- | Hp], Hq as [<- | Hq].
  - reflexivity.
  - exfalso. apply Hx. rewrite E. apply in_map, Hq.
  - exfalso. apply Hx. rewrite <- E. apply in_map, Hp.
  - apply IH; assumption.
Qed.

(** C6.  In a model whose states have distinct identifiers and whose
    transitions and start state refer to states of the model,
    [deleteState(st)] for a state [st] of the model returns, and afterwards
    the states are those other than [st], in their order; the transitions
    are those with [from <> st] and [to <> st], in their order and
    unchanged; the start state is null if it was [st] and is unchanged
    otherwise. *)
Theorem deleteState_removes_incident (sim : Sim) (st : State) :
  NoDup (map id (states sim)) ->
  (forall t, In t (transitions sim) ->
             In (from t) (states sim) /\ In (to t) (states sim)) ->
  (forall q, startState sim = Some q -> In q (states sim)) ->
  In st (states sim) ->
  exists sim',
    Modular.deleteState st sim = (Ret tt, sim') /\
    (forall q, In q (states sim') <-> In q (states sim) /\ q <> st) /\
    (forall t, In t (transitions sim') <->
               In t (transitions sim) /\ from t <> st /\ to t <> st) /\
    (exists keepS, states sim' = filter keepS (states sim)) /\
    (exists keepT, transitions sim' = filter keepT (transitions sim)) /\
    (startState sim = Some st -> startState sim' = None) /\
    (startState sim <> Some st -> startState sim' = startState sim).
Proof.
  intros ND HT HS Hst.
  destruct (deleteState_by_id sim st) as (sim' & E & Es & Et & Ess & _).
  assert (Hid : forall q, In q (states sim) -> (id q = id st <-> q = st)).
  { intros q Hq. split; [|intros ->; reflexivity].
    apply (same_id_same_state (states sim)); assumption. }
  exists sim'. split; [exact E|]. repeat split.
  - rewrite Es in H. apply filter_In in H. tauto.
  - rewrite Es in H. apply filter_In in H as [Hq Hn]. intros ->.
    rewrite Z.eqb_refl in Hn. discriminate.
  - intros [Hq Hn]. rewrite Es. apply filter_In. split; [exact Hq|].
    destruct (Z.eqb_spec (id q) (id st)) as [Eq|]; [|reflexivity].
    apply Hid in Eq; [contradiction | exact Hq].
  - rewrite Et in H. apply filter_In in H. tauto.
  - rewrite Et in H. apply filter_In in H as [_ Hn]. intros Eq.
    rewrite Eq, Z.eqb_refl in Hn. discriminate.
  - rewrite Et in H. apply filter_In in H as [_ Hn]. intros Eq.
    rewrite Eq, Z.eqb_refl, andb_false_r in Hn. discriminate.
  - intros (Ht & Hf & Hto). rewrite Et. apply filter_In. split; [exact Ht|].
    destruct (HT t Ht) as [Hfs Hts].
    destruct (Z.eqb_spec (id (from t)) (id st)) as [Eq|];
      [apply Hid in Eq; [contradiction | exact Hfs]|].
    destruct (Z.eqb_spec (id (to t)) (id st)) as [Eq|];
      [apply Hid in Eq; [contradiction | exact Hts]|].
    reflexivity.
  - eexists. exact Es.
  - eexists. exact Et.
  - intros Hs. rewrite Ess, Hs, Z.eqb_refl. reflexivity.
  - intros Hs. rewrite Ess. destruct (startState sim) as [q|]; [|reflexivity].
    destruct (Z.eqb_spec (id q) (id st)) as [Eq|]; [|reflexivity].
    apply Hid in Eq; [congruence | apply HS; reflexivity].
Qed.

Lemma deleteState_removes_incident_witness :
  exists sim',
    Modular.deleteState Examples.q1 Examples.chain = (Ret tt, sim') /\
    (forall t, In t (transitions sim') <->
               In t (transitions Examples.chain) /\
               from t <> Examples.q1 /\ to t <> Examples.q1).
Proof.
  assert (ND : NoDup (map id (states Examples.chain))).
  { simpl. repeat constructor; simpl; intuition discriminate. }
  assert (HT : forall t, In t (transitions Examples.chain) ->
                 In (from t) (states Examples.chain) /\
                 In (to t) (states Examples.chain)).
  { simpl. intros t [<- | [<- | []]]; simpl; tauto. }
  assert (HS : forall q, startState Examples.chain = Some q ->
                 In q (states Examples.chain)).
  { simpl. intros q [= <-]. tauto. }
  assert (Hin : In Examples.q1 (states Examples.chain)) by (simpl; tauto).
  destruct (deleteState_removes_incident Examples.chain Examples.q1 ND HT HS Hin)
    as (sim' & E & _ & H & _).
  exists sim'. split; [exact E | exact H].
Defined.

(* ===================================================================== *)
(** * Adding symbols: failures change nothing *)
(* ===================================================================== *)

Lemma forEachM_unchanged {A} (f : A -> M unit) (l : list A) :
  (forall x s, snd (f x s) = s) ->
  forall s, snd (forEachM f l s) = s.
Proof.
  intros Hf. induction l as [|x l IH]; intros s; simpl; [reflexivity|].
  unfold bind. specialize (Hf x s).
  destruct (f x s) as [[[]|e] s']; simpl in *; subst; [apply IH | reflexivity].
Qed.

Lemma bind_unchanged {A B} (c : M A) (k : A -> M B) :
  (forall s, snd (c s) = s) ->
  (forall x s, snd (k x s) = s) ->
  forall s, snd (bind c k s) = s.
Proof.
  intros Hc Hk s. unfold bind. specialize (Hc s).
  destruct (c s) as [[x|e] s']; simpl in *; subst; [apply Hk | reflexivity].
Qed.

(** [validateTransition] only reads the simulator. *)
Lemma validateTransition_unchanged (a b : State) (symbols : list jsstring)
  (s : Sim) :
  snd (Modular.validateTransition a b symbols s) = s.
Proof.
  revert s. unfold Modular.validateTransition.
  apply bind_unchanged.
  - apply forEachM_unchanged. intros x s.
    destruct (List.length x =? 1)%nat; reflexivity.
  - intros _. apply bind_unchanged; [|reflexivity].
    apply forEachM_unchanged. intros x.
    apply bind_unchanged; [reflexivity|].
    intros ts s. destruct (find (carriesFrom a x) ts); reflexivity.
Qed.

(** The placement of a new transition never throws. *)
Lemma placeAndPush_returns (a b : State) (symbols : list jsstring) (newId : Z)
  (s : Sim) :
  fst (placeAndPush a b symbols newId s) = Ret tt.
Proof.
  unfold placeAndPush, bind, gets, modify. simpl.
  destruct (id a =? id b)%Z; [reflexivity|].
  destruct (find (joins b a) (transitions s)); reflexivity.
Qed.

(** [createNewTransition] throws before it has written anything. *)
Lemma createNewTransition_throws (a b : State) (symbols : list jsstring)
  (newId : Z) (s s' : Sim) (e : Error) :
  Modular.createNewTransition a b symbols newId s = (Throw e, s') ->
  s' = s /\ e = DuplicateSymbol.
Proof.
  unfold Modular.createNewTransition. unfold bind at 1. unfold gets at 1.
  destruct (find (joins a b) (transitions s)) as [t|].
  - destruct (0 <? _)%nat; unfold modify, throw; intros [= <- <-];
      split; reflexivity.
  - intros H. pose proof (placeAndPush_returns a b symbols newId s) as R.
    rewrite H in R. discriminate R.
Qed.

Lemma modular_confirmTransition_atomic (input : jsstring) (a b : State)
  (editing : option nat) (newId : Z) (sim sim' : Sim) (r : Res Outcome)
  (e : Error) :
  Modular.confirmTransition input a b editing newId sim = (r, sim') ->
  failedWith r e -> sim' = sim.
Proof.
  unfold Modular.confirmTransition, failedWith.
  destruct (trim input) as [|u rest] eqn:Ti.
  - intros [= <- <-] _. reflexivity.
  - destruct (List.length (parseSymbols (u :: rest)) =? 0)%nat.
    + intros [= <- <-] _. reflexivity.
    + unfold bind at 1. unfold tryCatch. unfold bind at 1.
      pose proof (validateTransition_unchanged a b (parseSymbols (u :: rest)) sim) as V.
      destruct (Modular.validateTransition a b (parseSymbols (u :: rest)) sim)
        as [[v|ev] s1]; simpl in V; subst s1.
      * unfold ret at 1. unfold bind at 1. destruct editing as [i|].
        -- unfold modify, ret. intros [= <- <-] [F|F]; discriminate F.
        -- destruct (Modular.createNewTransition a b (parseSymbols (u :: rest))
                       newId sim) as [[[]|ec] s2] eqn:C.
           ++ unfold ret. intros [= <- <-] [F|F]; discriminate F.
           ++ intros [= <- <-] _. apply createNewTransition_throws in C. tauto.
      * unfold ret. intros [= <- <-] _. reflexivity.
Qed.

Lemma monolith_confirmTransition_atomic (input : jsstring) (a b : State)
  (editing : option nat) (newId : Z) (sim sim' : Sim) (r : Res Outcome)
  (e : Error) :
  Monolith.confirmTransition input a b editing newId sim = (r, sim') ->
  failedWith r e -> sim' = sim.
Proof.
  unfold Monolith.confirmTransition, failedWith.
  destruct (trim input) as [|u rest] eqn:Ti.
  - intros [= <- <-] _. reflexivity.
  - destruct (List.length (parseSymbols (u :: rest)) =? 0)%nat.
    + intros [= <- <-] _. reflexivity.
    + destruct (negb _).
      * intros [= <- <-] _. reflexivity.
      * destruct editing as [i|].
        -- unfold bind, modify, ret. intros [= <- <-] [F|F]; discriminate F.
        -- unfold bind at 1. unfold gets at 1.
           destruct (find (joins a b) (transitions sim)) as [t|].
           ++ destruct (0 <? _)%nat.
              ** unfold bind, modify, ret. intros [= <- <-] [F|F]; discriminate F.
              ** intros [= <- <-] _. reflexivity.
           ++ destruct (find _ (parseSymbols (u :: rest))) as [c|].
              ** intros [= <- <-] _. reflexivity.
              ** unfold bind.
                 pose proof (placeAndPush_returns a b (parseSymbols (u :: rest))
                               newId sim) as R.
                 destruct (placeAndPush a b (parseSymbols (u :: rest)) newId sim)
                   as [[[]|ep] s2]; simpl in R; [|discriminate R].
                 unfold ret. intros [= <- <-] [F|F]; discriminate F.
Qed.

(** C5.  Whenever [confirmTransition] fails, whatever the error (an
    [alert] it raises itself, the error of [validateTransition] that it
    catches and shows, or the error thrown by [createNewTransition]), the
    whole simulator (states, transitions with their symbols, start state)
    is exactly as it was before the call.  This holds for
    [BaseAutomaton.confirmTransition] and for main.js's
    [confirmTransition], also when a transition is being edited. *)
Theorem confirmTransition_failure_changes_nothing (input : jsstring)
  (a b : State) (editing : option nat) (newId : Z) (sim sim' : Sim)
  (r : Res Outcome) (e : Error) :
  failedWith r e ->
  (Modular.confirmTransition input a b editing newId sim = (r, sim') ->
   sim' = sim) /\
  (Monolith.confirmTransition input a b editing newId sim = (r, sim') ->
   sim' = sim).
Proof.
  intros F. split; intros H.
  - eapply modular_confirmTransition_atomic; eassumption.
  - eapply monolith_confirmTransition_atomic; eassumption.
Qed.

Lemma confirmTransition_failure_changes_nothing_witness :
  failedWith
    (fst (Modular.confirmTransition (str "a") Examples.q0 Examples.q1 None 99
            Examples.scenario3))
    (DeterminismViolation (str "q0") (str "a")) /\
  snd (Modular.confirmTransition (str "a") Examples.q0 Examples.q1 None 99
         Examples.scenario3) = Examples.scenario3 /\
  snd (Monolith.confirmTransition (str "a") Examples.q0 Examples.q1 None 99
         Examples.scenario3) = Examples.scenario3.
Proof.
  assert (F : failedWith
                (Ret (Alert (DeterminismViolation (str "q0") (str "a"))))
                (DeterminismViolation (str "q0") (str "a")))
    by (left; reflexivity).
  split; [exact F|]. split.
  - exact (proj1 (confirmTransition_failure_changes_nothing
                    (str "a") Examples.q0 Examples.q1 None 99
                    Examples.scenario3 _ _ _ F) eq_refl).
  - exact (proj2 (confirmTransition_failure_changes_nothing
                    (str "a") Examples.q0 Examples.q1 None 99
                    Examples.scenario3 _ _ _ F) eq_refl).
Defined.

(* ===================================================================== *)
(** * The bulk test *)
(* ===================================================================== *)

Lemma indexOf_range (all : list jsstring) (s : jsstring) :
  (occurrences all s = 0%nat /\ indexOf all s = (-1)%Z) \/
  ((0 < occurrences all s)%nat /\ (0 <= indexOf all s)%Z).
Proof.
  unfold occurrences. induction all as [|y r IH]; simpl.
  - left. split; reflexivity.
  - destruct (seqb y s); simpl.
    + right. split; lia.
    + destruct IH as [[H0 H1] | [H0 H1]].
      * left. rewrite H1. simpl. split; [exact H0 | reflexivity].
      * right. destruct (Z.ltb_spec (indexOf r s) 0); lia.
Qed.

Lemma lastIndexOf_range (all : list jsstring) (s : jsstring) :
  (occurrences all s = 0%nat /\ lastIndexOf all s = (-1)%Z) \/
  ((0 < occurrences all s)%nat /\ (0 <= lastIndexOf all s)%Z).
Proof.
  unfold occurrences. induction all as [|y r IH]; simpl.
  - left. split; reflexivity.
  - destruct IH as [[H0 H1] | [H0 H1]].
    + rewrite H1. simpl. destruct (seqb y s); simpl.
      * right. split; lia.
      * left. split; [exact H0 | reflexivity].
    + right. destruct (Z.ltb_spec (lastIndexOf r s) 0); [lia|].
      destruct (seqb y s); simpl; lia.
Qed.

(** [indexOf] and [lastIndexOf] coincide exactly on the strings that occur
    at most once. *)
Lemma indexOf_eq_lastIndexOf (all : list jsstring) (s : jsstring) :
  indexOf all s = lastIndexOf all s <-> (occurrences all s <= 1)%nat.
Proof.
  induction all as [|y r IH].
  - simpl. split; [intros _; unfold occurrences; simpl; lia | reflexivity].
  - pose proof (indexOf_range r s) as I. pose proof (lastIndexOf_range r s) as L.
    unfold occurrences in *. simpl.
    destruct (seqb y s); simpl.
    + destruct (Z.ltb_spec (lastIndexOf r s) 0); lia.
    + destruct (Z.ltb_spec (indexOf r s) 0), (Z.ltb_spec (lastIndexOf r s) 0);
        lia.
Qed.

Lemma occurrences_In (all : list jsstring) (s : jsstring) :
  In s all -> (0 < occurrences all s)%nat.
Proof.
  unfold occurrences. induction all as [|y r IH]; simpl; [intros []|].
  intros [-> | H].
  - rewrite seqb_refl. simpl. lia.
  - destruct (seqb y s); simpl; [lia | apply IH, H].
Qed.

(** The guard of the callbacks: a string of the list is tested when it is
    empty or occurs exactly once in the list. *)
Lemma tested_spec (all : list jsstring) (s : jsstring) :
  In s all ->
  (Bulk.tested all s = true <-> s = [] \/ occurrences all s = 1%nat).
Proof.
  intros Hin. apply occurrences_In in Hin.
  unfold Bulk.tested. rewrite orb_true_iff, seqb_eq, Z.eqb_eq,
    indexOf_eq_lastIndexOf.
  split; intros [H|H]; auto; right; lia.
Qed.

Lemma bulkCallback_step (sim : Sim) (all : list jsstring) (expectedResult : bool)
  (results : list Bulk.BulkResult) (totalTests passedTests : Z) (s : jsstring) :
  Bulk.bulkCallback sim all expectedResult (results, totalTests, passedTests) s =
  if Bulk.tested all s
  then (results ++ [bulkEntry sim expectedResult s], (totalTests + 1)%Z,
        if Bulk.passed (bulkEntry sim expectedResult s)
        then (passedTests + 1)%Z else passedTests)
  else (results, totalTests, passedTests).
Proof. reflexivity. Qed.

(** One [forEach] of [runBulkTest]: an entry is appended for every tested
    string, in order, and the two counters follow. *)
Lemma bulk_forEach (sim : Sim) (all : list jsstring) (expectedResult : bool)
  (l : list jsstring) :
  forall results totalTests passedTests,
    fold_left (Bulk.bulkCallback sim all expectedResult) l
              (results, totalTests, passedTests) =
    (results ++ map (bulkEntry sim expectedResult) (filter (Bulk.tested all) l),
     (totalTests + Z.of_nat (List.length (filter (Bulk.tested all) l)))%Z,
     (passedTests + Z.of_nat (List.length
        (filter Bulk.passed
           (map (bulkEntry sim expectedResult) (filter (Bulk.tested all) l)))))%Z).
Proof.
  induction l as [|s l IH]; intros results totalTests passedTests;
    cbn [fold_left filter].
  - cbn [map filter List.length]. rewrite app_nil_r, !Z.add_0_r. reflexivity.
  - rewrite bulkCallback_step. destruct (Bulk.tested all s) eqn:T.
    + rewrite IH. cbn [map filter].
      destruct (Bulk.passed (bulkEntry sim expectedResult s)) eqn:P;
        cbn [List.length]; rewrite <- app_assoc; cbn [app];
        repeat match goal with |- (_, _) = (_, _) => f_equal end;
        try reflexivity; lia.
    + apply IH.
Qed.

(** The bulk test as worded fails: with the accept list ["ab"; "ab"] (the
    text "ab", a line break, "ab") the results hold no entry for "ab". *)
Lemma bulk_test_skips_repeated_strings :
  Bulk.lines (str "ab" ++ [newline] ++ str "ab") = [str "ab"; str "ab"] /\
  Bulk.runBulkTest Examples.chain (str "ab" ++ [newline] ++ str "ab") []
    = Bulk.Displayed [bulkEntry Examples.chain false []] 1 1 /\
  ~ oneEntryPerString Examples.chain (str "ab" ++ [newline] ++ str "ab") [].
Proof.
  split; [reflexivity|]. split; [reflexivity|].
  intros (p & t & H). vm_compute in H. discriminate H.
Qed.

(** C9 (amended).  On an automaton with a start state, [runBulkTest]
    displays, in order, one entry for each string of the accept list and
    then one for each string of the reject list that is empty or occurs
    exactly once in its own list (a string that is repeated within a list
    gets no entry).  The entry of a string records whether [simulateInput]
    on that string gave the expected outcome (accept for the accept list,
    reject for the reject list); the two counts displayed are the number
    of entries and the number of entries that passed.  In particular, when
    no non-empty string is repeated within a list, there is one entry for
    each string of both lists. *)
Theorem runBulkTest_entries (sim : Sim) (s0 : State)
  (acceptInput rejectInput : jsstring) :
  startState sim = Some s0 ->
  exists results passedTests totalTests,
    Bulk.runBulkTest sim acceptInput rejectInput
      = Bulk.Displayed results passedTests totalTests /\
    results =
      map (bulkEntry sim true)
          (filter (Bulk.tested (Bulk.lines acceptInput)) (Bulk.lines acceptInput))
      ++ map (bulkEntry sim false)
          (filter (Bulk.tested (Bulk.lines rejectInput)) (Bulk.lines rejectInput)) /\
    (forall s, In s (Bulk.lines acceptInput) ->
       (Bulk.tested (Bulk.lines acceptInput) s = true <->
        s = [] \/ occurrences (Bulk.lines acceptInput) s = 1%nat)) /\
    (forall s, In s (Bulk.lines rejectInput) ->
       (Bulk.tested (Bulk.lines rejectInput) s = true <->
        s = [] \/ occurrences (Bulk.lines rejectInput) s = 1%nat)) /\
    (forall s expectedResult,
       Bulk.passed (bulkEntry sim expectedResult s)
         = Bool.eqb (simulateInput sim s) expectedResult) /\
    totalTests = Z.of_nat (List.length results) /\
    passedTests = Z.of_nat (List.length (filter Bulk.passed results)) /\
    ((forall s, In s (Bulk.lines acceptInput) ->
        s = [] \/ occurrences (Bulk.lines acceptInput) s = 1%nat) ->
     (forall s, In s (Bulk.lines rejectInput) ->
        s = [] \/ occurrences (Bulk.lines rejectInput) s = 1%nat) ->
     results = map (bulkEntry sim true) (Bulk.lines acceptInput)
               ++ map (bulkEntry sim false) (Bulk.lines rejectInput)).
Proof.
  intros Hs. unfold Bulk.runBulkTest, Bulk.bulkLists. rewrite Hs.
  rewrite !bulk_forEach. simpl app.
  do 3 eexists. split; [reflexivity|]. split; [reflexivity|].
  split; [intros s; apply tested_spec|].
  split; [intros s; apply tested_spec|].
  split; [reflexivity|].
  split; [rewrite length_app, !length_map; lia|].
  split; [rewrite filter_app, length_app; lia|].
  intros HA HR. f_equal; f_equal.
  - apply forallb_filter_id. apply forallb_forall. intros s Hin.
    apply tested_spec; auto.
  - apply forallb_filter_id. apply forallb_forall. intros s Hin.
    apply tested_spec; auto.
Qed.

Lemma runBulkTest_entries_witness :
  exists results passedTests totalTests,
    Bulk.runBulkTest Examples.chain (str "ab" ++ [newline] ++ str "b") (str "a")
      = Bulk.Displayed results passedTests totalTests /\
    totalTests = Z.of_nat (List.length results).
Proof.
  destruct (runBulkTest_entries Examples.chain Examples.q0
              (str "ab" ++ [newline] ++ str "b") (str "a") eq_refl)
    as (results & p & t & H1 & _ & _ & _ & _ & H2 & _).
  exists results, p, t. split; [exact H1 | exact H2].
Defined.

(* ===================================================================== *)
(** * The determinism check of the two [confirmTransition]s *)
(* ===================================================================== *)

Lemma forEachM_returns {A} (f : A -> M unit) (l : list A) :
  (forall x s, snd (f x s) = s) ->
  forall s r s', forEachM f l s = (r, s') ->
    (r = Ret tt <-> forall x, In x l -> fst (f x s) = Ret tt).
Proof.
  intros Hf. induction l as [|x l IH]; intros s r s'; simpl.
  - intros [= <- <-]. split; [intros _ ? [] | reflexivity].
  - unfold bind. pose proof (Hf x s) as Hx.
    destruct (f x s) as [[[]|e] s1] eqn:E; simpl in Hx; subst s1.
    + intros H. rewrite (IH _ _ _ H). split.
      * intros Hl y [<- | Hy]; [rewrite E; reflexivity | apply Hl, Hy].
      * intros Hl y Hy. apply Hl. right. exact Hy.
    + intros [= <- <-]. split; [discriminate|].
      intros Hl. specialize (Hl x (or_introl eq_refl)). rewrite E in Hl.
      discriminate Hl.
Qed.

(** [validateTransition] returns exactly when every requested symbol is
    one unit long and no transition leaving [a] carries any of them. *)
Lemma validateTransition_returns (a b : State) (symbols : list jsstring)
  (s : Sim) :
  (exists v, fst (Modular.validateTransition a b symbols s) = Ret v) <->
  (forall c, In c symbols ->
     List.length c = 1%nat /\ find (carriesFrom a c) (transitions s) = None).
Proof.
  pose (f1 := fun c : jsstring =>
               if (List.length c =? 1)%nat then ret tt else throw InvalidSymbol).
  pose (f2 := fun c : jsstring =>
               ts <- gets transitions ;;
               match find (carriesFrom a c) ts with
               | Some _ => throw (DeterminismViolation (label a) c)
               | None => ret tt
               end).
  change (Modular.validateTransition a b symbols s)
    with (bind (forEachM f1 symbols)
               (fun _ => bind (forEachM f2 symbols) (fun _ => ret true)) s).
  unfold bind at 1.
  assert (R1 : forall x s0, snd (f1 x s0) = s0).
  { intros x s0. unfold f1. destruct (List.length x =? 1)%nat; reflexivity. }
  assert (R2 : forall x s0, snd (f2 x s0) = s0).
  { intros x s0. unfold f2, bind, gets.
    destruct (find (carriesFrom a x) (transitions s0)); reflexivity. }
  assert (P1 : forall x, fst (f1 x s) = Ret tt <-> List.length x = 1%nat).
  { intros x. unfold f1. destruct (Nat.eqb_spec (List.length x) 1);
      simpl; split; congruence. }
  assert (P2 : forall x, fst (f2 x s) = Ret tt <->
                         find (carriesFrom a x) (transitions s) = None).
  { intros x. unfold f2, bind, gets.
    destruct (find (carriesFrom a x) (transitions s)); simpl; split; congruence. }
  pose proof (forEachM_unchanged f1 symbols R1 s) as U1.
  destruct (forEachM f1 symbols s) as [r1 s1] eqn:E1. simpl in U1. subst s1.
  pose proof (forEachM_returns f1 symbols R1 s _ _ E1) as W1.
  destruct r1 as [[]|e1].
  - unfold bind.
    pose proof (forEachM_unchanged f2 symbols R2 s) as U2.
    destruct (forEachM f2 symbols s) as [r2 s2] eqn:E2. simpl in U2. subst s2.
    pose proof (forEachM_returns f2 symbols R2 s _ _ E2) as W2.
    destruct r2 as [[]|e2]; simpl.
    + split; [|intros _; exists true; reflexivity]. intros _ c Hc. split.
      * apply P1, W1; [reflexivity | exact Hc].
      * apply P2, W2; [reflexivity | exact Hc].
    + split; [intros [v Hv]; discriminate Hv|].
      intros H. assert (X : @Throw unit e2 = Ret tt); [|discriminate X].
      apply W2. intros c Hc. apply P2, H, Hc.
  - simpl. split; [intros [v Hv]; discriminate Hv|].
    intros H. assert (X : @Throw unit e1 = Ret tt); [|discriminate X].
    apply W1. intros c Hc. apply P1, H, Hc.
Qed.

Lemma forEachM_throws {A} (f : A -> M unit) (l : list A) :
  (forall x s, snd (f x s) = s) ->
  forall s e s', forEachM f l s = (Throw e, s') ->
    exists x, In x l /\ fst (f x s) = Throw e.
Proof.
  intros Hf. induction l as [|x l IH]; intros s e s'; simpl.
  - discriminate.
  - unfold bind. pose proof (Hf x s) as Hx.
    destruct (f x s) as [[[]|e0] s1] eqn:E; simpl in Hx; subst s1.
    + intros H. destruct (IH _ _ _ H) as (y & Hy & Ey). eauto.
    + intros [= <- <-]. exists x. rewrite E. auto.
Qed.

(** The two errors of [validateTransition]: a requested symbol that is not
    one unit long, or a requested symbol that a transition leaving [a]
    already carries. *)
Lemma validateTransition_throws (a b : State) (symbols : list jsstring)
  (s : Sim) (e : Error) :
  fst (Modular.validateTransition a b symbols s) = Throw e ->
  (e = InvalidSymbol /\ exists c, In c symbols /\ List.length c <> 1%nat) \/
  (exists c t, In c symbols /\ e = DeterminismViolation (label a) c /\
               find (carriesFrom a c) (transitions s) = Some t).
Proof.
  pose (f1 := fun c : jsstring =>
               if (List.length c =? 1)%nat then ret tt else throw InvalidSymbol).
  pose (f2 := fun c : jsstring =>
               ts <- gets transitions ;;
               match find (carriesFrom a c) ts with
               | Some _ => throw (DeterminismViolation (label a) c)
               | None => ret tt
               end).
  change (Modular.validateTransition a b symbols s)
    with (bind (forEachM f1 symbols)
               (fun _ => bind (forEachM f2 symbols) (fun _ => ret true)) s).
  assert (R1 : forall x s0, snd (f1 x s0) = s0).
  { intros x s0. unfold f1. destruct (List.length x =? 1)%nat; reflexivity. }
  assert (R2 : forall x s0, snd (f2 x s0) = s0).
  { intros x s0. unfold f2, bind, gets.
    destruct (find (carriesFrom a x) (transitions s0)); reflexivity. }
  unfold bind at 1.
  pose proof (forEachM_unchanged f1 symbols R1 s) as U1.
  destruct (forEachM f1 symbols s) as [[[]|e1] s1] eqn:E1; simpl in U1; subst s1.
  - unfold bind.
    pose proof (forEachM_unchanged f2 symbols R2 s) as U2.
    destruct (forEachM f2 symbols s) as [[[]|e2] s2] eqn:E2; simpl in U2; subst s2;
      simpl; [discriminate|].
    intros [= <-]. right.
    destruct (forEachM_throws f2 symbols R2 _ _ _ E2) as (c & Hc & Ec).
    revert Ec. unfold f2, bind, gets.
    destruct (find (carriesFrom a c) (transitions s)) as [t|] eqn:Ft; simpl;
      [|discriminate].
    intros [= <-]. exists c, t. auto.
  - simpl. intros [= <-]. left.
    destruct (forEachM_throws f1 symbols R1 _ _ _ E1) as (c & Hc & Ec).
    revert Ec. unfold f1.
    destruct (Nat.eqb_spec (List.length c) 1); simpl; [discriminate|].
    intros [= <-]. split; [reflexivity|]. exists c. auto.
Qed.

Lemma filter_all {A} (p : A -> bool) (l : list A) :
  (forall x, In x l -> p x = true) -> filter p l = l.
Proof.
  intros H. apply forallb_filter_id, forallb_forall, H.
Qed.

Lemma filter_none {A} (p : A -> bool) (l : list A) :
  (forall x, In x l -> p x = false) -> filter p l = [].
Proof.
  induction l as [|x l IH]; simpl; intros H; [reflexivity|].
  rewrite (H x (or_introl eq_refl)). apply IH. intros y Hy. apply H. right. exact Hy.
Qed.

(** In [baseAutomaton.js] the error 'All symbols already exist for this
    transition!' cannot arise: when [createNewTransition] is reached, the
    check of [validateTransition] has passed, so none of the requested
    symbols is on the transition that joins [a] to [b]. *)
Lemma modular_never_DuplicateSymbol (input : jsstring) (a b : State)
  (newId : Z) (sim sim' : Sim) (r : Res Outcome) :
  Modular.confirmTransition input a b None newId sim = (r, sim') ->
  ~ failedWith r DuplicateSymbol.
Proof.
  unfold Modular.confirmTransition, failedWith.
  destruct (trim input) as [|u rest] eqn:Ti.
  - intros [= <- <-] [F|F]; discriminate F.
  - destruct (List.length (parseSymbols (u :: rest)) =? 0)%nat eqn:Len.
    + intros [= <- <-] [F|F]; discriminate F.
    + unfold bind at 1. unfold tryCatch. unfold bind at 1.
      pose proof (validateTransition_unchanged a b (parseSymbols (u :: rest)) sim) as V.
      pose proof (validateTransition_returns a b (parseSymbols (u :: rest)) sim) as W.
      destruct (Modular.validateTransition a b (parseSymbols (u :: rest)) sim)
        as [[v|ev] s1] eqn:EV; simpl in V; subst s1.
      * unfold ret at 1. unfold bind at 1.
        destruct (Modular.createNewTransition a b (parseSymbols (u :: rest))
                    newId sim) as [[[]|ec] s2] eqn:C.
        -- unfold ret. intros [= <- <-] [F|F]; discriminate F.
        -- exfalso. simpl in W. destruct W as [W _].
           specialize (W (ex_intro _ v eq_refl)).
           revert C. unfold Modular.createNewTransition.
           unfold bind at 1. unfold gets at 1.
           destruct (find (joins a b) (transitions sim)) as [t|] eqn:Ft.
           ++ rewrite filter_all.
              ** apply Nat.eqb_neq in Len.
                 destruct (parseSymbols (u :: rest)); [contradiction|].
                 simpl. unfold modify. discriminate.
              ** intros c Hc. apply negb_true_iff.
                 destruct (W c Hc) as [_ Fc].
                 pose proof (find_none _ _ Fc t) as Nt.
                 apply find_some in Ft as [Ht Jt].
                 specialize (Nt Ht). unfold carriesFrom in Nt.
                 unfold joins in Jt. apply andb_true_iff in Jt as [Jt _].
                 rewrite Jt in Nt. exact Nt.
           ++ intros H.
              pose proof (placeAndPush_returns a b (parseSymbols (u :: rest))
                            newId sim) as R.
              rewrite H in R. discriminate R.
      * unfold ret. intros [= <- <-] [F|F]; [|discriminate F].
        injection F as ->.
        destruct (validateTransition_throws a b (parseSymbols (u :: rest)) sim
                    DuplicateSymbol) as [[X _] | (c & t & _ & X & _)];
          [rewrite EV; reflexivity | discriminate X | discriminate X].
Qed.

(** In main.js, a request for symbols that are all on the transition from
    [a] to [b] already stops at 'All symbols already exist for this
    transition!'. *)
Lemma monolith_DuplicateSymbol (input : jsstring) (a b : State) (newId : Z)
  (sim : Sim) (t : Transition) :
  parseSymbols (trim input) <> [] ->
  (forall c, In c (parseSymbols (trim input)) ->
             List.length c = 1%nat /\ In c (symbolsOf t)) ->
  find (joins a b) (transitions sim) = Some t ->
  Monolith.confirmTransition input a b None newId sim
    = (Ret (Alert DuplicateSymbol), sim).
Proof.
  intros Hne Hall Ft. unfold Monolith.confirmTransition.
  destruct (trim input) as [|u rest] eqn:Ti; [contradiction Hne; reflexivity|].
  destruct (parseSymbols (u :: rest)) as [|c0 cs] eqn:Ps; [contradiction|].
  cbn [List.length Nat.eqb].
  replace (forallb (fun c => (List.length c =? 1)%nat) (c0 :: cs)) with true.
  2:{ symmetry. apply forallb_forall. intros c Hc. apply Nat.eqb_eq, Hall, Hc. }
  cbn [negb]. unfold bind at 1. unfold gets at 1. rewrite Ft.
  rewrite filter_none; [reflexivity|].
  intros c Hc. apply negb_false_iff, includes_In, Hall, Hc.
Qed.

(** In main.js, when a transition from [a] to [b] exists, every requested
    symbol that it does not carry yet is added to it, whatever the other
    transitions leaving [a] carry. *)
Lemma monolith_merges_unchecked (input : jsstring) (a b : State) (newId : Z)
  (sim : Sim) (t : Transition) (c : jsstring) :
  (forall d, In d (parseSymbols (trim input)) -> List.length d = 1%nat) ->
  In c (parseSymbols (trim input)) -> ~ In c (symbolsOf t) ->
  find (joins a b) (transitions sim) = Some t ->
  Monolith.confirmTransition input a b None newId sim
    = (Ret Completed,
       setTransitions
         (updateFirst (joins a b)
            (setSymbol (join commaSpace
               (symbolsOf t
                ++ filter (fun d => negb (includes (symbolsOf t) d))
                          (parseSymbols (trim input)))))
            (transitions sim)) sim).
Proof.
  intros Hlen Hc Hnew Ft. unfold Monolith.confirmTransition.
  assert (Hne : parseSymbols (trim input) <> []) by (intros E; rewrite E in Hc; destruct Hc).
  destruct (trim input) as [|u rest] eqn:Ti; [contradiction Hne; reflexivity|].
  assert (Hf : In c (filter (fun d => negb (includes (symbolsOf t) d))
                            (parseSymbols (u :: rest)))).
  { apply filter_In. split; [exact Hc|]. apply negb_true_iff, includes_not_In, Hnew. }
  destruct (parseSymbols (u :: rest)) as [|c0 cs] eqn:Ps; [contradiction|].
  cbn [List.length Nat.eqb].
  replace (forallb (fun c => (List.length c =? 1)%nat) (c0 :: cs)) with true.
  2:{ symmetry. apply forallb_forall. intros d Hd. apply Nat.eqb_eq, Hlen, Hd. }
  cbn [negb]. unfold bind at 1. unfold gets at 1. rewrite Ft.
  destruct (filter _ (c0 :: cs)) as [|n ns] eqn:Fl; [destruct Hf|].
  reflexivity.
Qed.

(* ===================================================================== *)
(** * Symbols survive [join(', ')] followed by [split(',')] and [trim] *)
(* ===================================================================== *)

Lemma trimStart_In (s : jsstring) (u : N) : In u (trimStart s) -> In u s.
Proof.
  induction s as [|v r IH]; simpl; [tauto|].
  destruct (isWhite v); [intros H; right; apply IH, H | tauto].
Qed.

Lemma trimEnd_In (s : jsstring) (u : N) : In u (trimEnd s) -> In u s.
Proof.
  induction s as [|v r IH]; simpl; [tauto|].
  destruct (trimEnd r) as [|w r'].
  - destruct (isWhite v); simpl; tauto.
  - simpl. intros [H | H]; [tauto | right; apply IH; exact H].
Qed.

Lemma trim_In (s : jsstring) (u : N) : In u (trim s) -> In u s.
Proof. intros H. apply trimStart_In, trimEnd_In, H. Qed.

Lemma trimStart_fixed (s : jsstring) :
  trimStart s = s <-> match s with [] => True | u :: _ => isWhite u = false end.
Proof.
  destruct s as [|u r]; simpl; [tauto|].
  destruct (isWhite u) eqn:W; split; try congruence; try reflexivity.
  intros E. assert (L : List.length (trimStart r) = S (List.length r))
    by (rewrite E; reflexivity).
  assert (B : forall l, (List.length (trimStart l) <= List.length l)%nat).
  { induction l as [|v l IH]; simpl; [lia|]. destruct (isWhite v); simpl; lia. }
  specialize (B r). lia.
Qed.

Lemma trimStart_idem (s : jsstring) : trimStart (trimStart s) = trimStart s.
Proof.
  induction s as [|u r IH]; simpl; [reflexivity|].
  destruct (isWhite u) eqn:W; [exact IH|]. simpl. rewrite W. reflexivity.
Qed.

Lemma trimEnd_idem (s : jsstring) : trimEnd (trimEnd s) = trimEnd s.
Proof.
  induction s as [|u r IH]; simpl; [reflexivity|].
  destruct (trimEnd r) as [|w r'] eqn:E.
  - destruct (isWhite u) eqn:W; simpl; [reflexivity|]. rewrite W. reflexivity.
  - change (trimEnd (u :: w :: r'))
      with (match trimEnd (w :: r') with
            | [] => if isWhite u then [] else [u]
            | v :: r'' => u :: v :: r''
            end).
    rewrite IH. reflexivity.
Qed.

Lemma trimEnd_head (u : N) (r : jsstring) :
  isWhite u = false -> exists r', trimEnd (u :: r) = u :: r'.
Proof.
  intros W. simpl. destruct (trimEnd r) as [|w r'].
  - rewrite W. eauto.
  - eauto.
Qed.

(** [trim] is idempotent. *)
Lemma trim_trim (s : jsstring) : trim (trim s) = trim s.
Proof.
  unfold trim.
  assert (C : trimStart (trimEnd (trimStart s)) = trimEnd (trimStart s)).
  { pose proof (trimStart_idem s) as I. apply trimStart_fixed in I.
    destruct (trimStart s) as [|u r]; [reflexivity|].
    destruct (trimEnd_head u r I) as [r' E]. rewrite E.
    apply trimStart_fixed. exact I. }
  rewrite C. apply trimEnd_idem.
Qed.

Lemma trim_after_space (s : jsstring) : trim (32%N :: s) = trim s.
Proof. reflexivity. Qed.

Lemma split_nonempty (sep : N) (s : jsstring) : split sep s <> [].
Proof.
  destruct s as [|u r]; simpl; [discriminate|].
  destruct (N.eqb u sep); [discriminate|].
  destruct (split sep r); discriminate.
Qed.

(** No piece of [split(',')] holds a comma. *)
Lemma split_pieces (s : jsstring) :
  Forall (fun p => ~ In comma p) (split comma s).
Proof.
  induction s as [|u r IH]; simpl.
  - constructor; [tauto | constructor].
  - destruct (N.eqb_spec u comma) as [E|E].
    + constructor; [tauto | exact IH].
    + destruct (split comma r) as [|p ps]; [repeat constructor; simpl; tauto|].
      inversion IH; subst. constructor; [|assumption].
      simpl. intros [H | H]; [congruence | contradiction].
Qed.

Lemma split_whole (x : jsstring) : ~ In comma x -> split comma x = [x].
Proof.
  induction x as [|u r IH]; simpl; [reflexivity|].
  intros H. destruct (N.eqb_spec u comma) as [E|E]; [tauto|].
  rewrite IH; tauto.
Qed.

Lemma split_at_comma (x z : jsstring) :
  ~ In comma x -> split comma (x ++ comma :: z) = x :: split comma z.
Proof.
  induction x as [|u r IH]; simpl; [reflexivity|].
  intros H. destruct (N.eqb_spec u comma) as [E|E]; [tauto|].
  rewrite IH; tauto.
Qed.

Lemma split_join (x : jsstring) (l : list jsstring) :
  Forall (fun p => ~ In comma p) (x :: l) ->
  split comma (join commaSpace (x :: l)) = x :: map (cons 32%N) l.
Proof.
  revert x. induction l as [|y l IH]; intros x H; inversion H; subst.
  - simpl. apply split_whole. assumption.
  - change (join commaSpace (x :: y :: l))
      with (x ++ comma :: 32%N :: join commaSpace (y :: l)).
    rewrite split_at_comma by assumption.
    cbn [split]. change (N.eqb 32 comma) with false. cbv iota.
    rewrite IH by assumption. reflexivity.
Qed.

(** Joining plain symbols with ', ' and reading the text back gives the
    same symbols. *)
Lemma symbols_roundtrip (l : list jsstring) :
  l <> [] -> Forall plainSymbol l ->
  map trim (split comma (join commaSpace l)) = l.
Proof.
  intros Hne H. destruct l as [|x l]; [contradiction|].
  rewrite split_join.
  - inversion H as [|? ? [_ Hx] Hl]; subst. cbn [map]. rewrite Hx. f_equal.
    rewrite map_map. clear -Hl.
    induction Hl as [|y l [_ Hy] Hl IH]; simpl; [reflexivity|].
    rewrite trim_after_space, Hy, IH. reflexivity.
  - eapply Forall_impl; [|exact H]. intros c [Hc _]. exact Hc.
Qed.

Lemma symbolsOf_plain (t : Transition) : Forall plainSymbol (symbolsOf t).
Proof.
  unfold symbolsOf. apply Forall_map.
  eapply Forall_impl; [|apply split_pieces].
  intros p Hp. split; [|apply trim_trim].
  intros H. apply Hp, trim_In, H.
Qed.

Lemma parseSymbols_plain (input : jsstring) :
  Forall plainSymbol (parseSymbols input).
Proof.
  unfold parseSymbols. apply Forall_forall. intros c Hc.
  apply filter_In in Hc as [Hc _]. revert c Hc. apply Forall_forall.
  apply Forall_map. eapply Forall_impl; [|apply split_pieces].
  intros p Hp. split; [|apply trim_trim].
  intros H. apply Hp, trim_In, H.
Qed.

(* ===================================================================== *)
(** * [BaseAutomaton.confirmTransition] keeps the automaton deterministic *)
(* ===================================================================== *)

Lemma nth_error_In_iff {A} (l : list A) (x : A) :
  In x l <-> exists i, nth_error l i = Some x.
Proof.
  split.
  - apply In_nth_error.
  - intros [i H]. eapply nth_error_In, H.
Qed.

(** The two readings of the invariant agree. *)
Lemma Deterministic_ClashFree (ts : list Transition) :
  Deterministic ts <-> ClashFree ts.
Proof.
  unfold Deterministic. split.
  - induction ts as [|t ts IH]; intros D; constructor.
    + intros t' Hin (c & E & C1 & C2).
      apply In_nth_error in Hin as [j Hj].
      specialize (D 0%nat (S j) t t' c eq_refl Hj E C1 C2). discriminate D.
    + apply IH. intros i j ti tj c Hi Hj E Ci Cj.
      specialize (D (S i) (S j) ti tj c Hi Hj E Ci Cj). congruence.
  - intros CF. induction CF as [|t ts Ht CF IH]; intros i j ti tj c Hi Hj E Ci Cj.
    + destruct i; discriminate Hi.
    + destruct i as [|i], j as [|j]; simpl in Hi, Hj.
      * reflexivity.
      * injection Hi as <-. exfalso. apply (Ht tj).
        -- eapply nth_error_In, Hj.
        -- exists c. auto.
      * injection Hj as <-. exfalso. apply (Ht ti).
        -- eapply nth_error_In, Hi.
        -- exists c. auto.
      * f_equal. eapply IH; eassumption.
Qed.

Lemma sameLabel_carries (t t' : Transition) (c : jsstring) :
  sameLabel t t' -> (carries t c <-> carries t' c).
Proof.
  intros [_ E]. unfold carries, symbolsOf. rewrite E. tauto.
Qed.

Lemma sameLabel_clash (t1 t1' t2 t2' : Transition) :
  sameLabel t1 t1' -> sameLabel t2 t2' -> clash t1 t2 -> clash t1' t2'.
Proof.
  intros L1 L2 (c & E & C1 & C2). exists c.
  destruct L1 as [F1 S1], L2 as [F2 S2].
  unfold carries, symbolsOf in *. rewrite <- F1, <- F2, <- S1, <- S2. auto.
Qed.

Lemma sameLabel_sym (t t' : Transition) : sameLabel t t' -> sameLabel t' t.
Proof. intros [H1 H2]. split; symmetry; assumption. Qed.

Lemma Forall2_sameLabel_In (l l' : list Transition) :
  Forall2 sameLabel l l' ->
  forall t', In t' l' -> exists t, In t l /\ sameLabel t t'.
Proof.
  induction 1 as [|x x' l l' Hx Hl IH]; intros t' Hin; [destruct Hin|].
  destruct Hin as [<- | Hin].
  - exists x. split; [left; reflexivity | exact Hx].
  - destruct (IH _ Hin) as (t & Ht & Lt). exists t. split; [right|]; assumption.
Qed.

(** Changing layout fields does not touch the invariant. *)
Lemma ClashFree_relabel (l l' : list Transition) :
  Forall2 sameLabel l l' -> ClashFree l -> ClashFree l'.
Proof.
  induction 1 as [|x x' l l' Hx Hl IH]; intros CF; [constructor|].
  inversion CF as [|? ? Hc CF']; subst. constructor; [|apply IH, CF'].
  intros t' Hin C.
  destruct (Forall2_sameLabel_In _ _ Hl _ Hin) as (t & Ht & Lt).
  apply (Hc t Ht).
  eapply sameLabel_clash; [apply sameLabel_sym, Hx | apply sameLabel_sym, Lt | exact C].
Qed.

Lemma updateFirst_sameLabel (p : Transition -> bool) (f : Transition -> Transition)
  (l : list Transition) :
  (forall t, sameLabel t (f t)) -> Forall2 sameLabel l (updateFirst p f l).
Proof.
  intros Hf. induction l as [|x l IH]; simpl; [constructor|].
  destruct (p x).
  - constructor; [apply Hf|]. clear. induction l; constructor; [split; reflexivity | assumption].
  - constructor; [split; reflexivity | exact IH].
Qed.

Lemma ClashFree_snoc (ts : list Transition) (tn : Transition) :
  ClashFree ts -> (forall t, In t ts -> ~ clash t tn) ->
  ClashFree (ts ++ [tn]).
Proof.
  induction 1 as [|t ts Ht CF IH]; intros Hn; simpl.
  - constructor; [intros ? [] | constructor].
  - constructor.
    + intros t' Hin. apply in_app_or in Hin as [Hin | [<- | []]].
      * apply Ht, Hin.
      * apply Hn. left. reflexivity.
    + apply IH. intros t' Hin. apply Hn. right. exact Hin.
Qed.

Lemma updateFirst_In {A} (p : A -> bool) (f : A -> A) (l : list A) (y : A) :
  In y (updateFirst p f l) ->
  In y l \/ exists e, find p l = Some e /\ y = f e.
Proof.
  induction l as [|x l IH]; simpl; [tauto|].
  destruct (p x).
  - intros [<- | H]; [right; eauto | left; right; exact H].
  - intros [<- | H]; [left; left; reflexivity|].
    destruct (IH H) as [H' | H']; [left; right; exact H' | right; exact H'].
Qed.

(** Replacing the symbols of the transition that [find] returns keeps the
    invariant, provided every symbol it carries afterwards was on it
    before or is on no transition leaving the same state. *)
Lemma ClashFree_replace (p : Transition -> bool) (f : Transition -> Transition)
  (ts : list Transition) (ex : Transition) :
  find p ts = Some ex ->
  from (f ex) = from ex ->
  (forall t c, In t ts -> id (from t) = id (from ex) ->
               carries (f ex) c -> carries ex c \/ ~ carries t c) ->
  ClashFree ts -> ClashFree (updateFirst p f ts).
Proof.
  intros Fe Hfrom Hnew CF. revert Fe Hnew.
  induction CF as [|x r Hx CF IH]; simpl; [discriminate|].
  destruct (p x) eqn:Px.
  - intros [= <-] Hnew. constructor; [|exact CF].
    intros t' Hin (c & E & C1 & C2). rewrite Hfrom in E.
    destruct (Hnew t' c (or_intror Hin) (eq_sym E) C1) as [H | H];
      [|contradiction].
    apply (Hx t' Hin). exists c. auto.
  - intros Fe Hnew. constructor.
    + intros t' Hin (c & E & C1 & C2).
      destruct (updateFirst_In _ _ _ _ Hin) as [H | (e & Fe' & ->)].
      * apply (Hx t' H). exists c. auto.
      * rewrite Fe in Fe'. injection Fe' as <-. rewrite Hfrom in E.
        destruct (Hnew x c (or_introl eq_refl) E C2) as [H | H];
          [|contradiction].
        apply find_some in Fe as [Hin' _].
        apply (Hx ex Hin'). exists c. auto.
    + apply IH; [exact Fe|].
      intros t c Hin. apply Hnew. right. exact Hin.
Qed.

Lemma unchecked_symbol_not_carried (ts : list Transition) (a : State)
  (c : jsstring) (t : Transition) :
  find (carriesFrom a c) ts = None -> In t ts -> id (from t) = id a ->
  ~ carries t c.
Proof.
  intros F Hin E C. pose proof (find_none _ _ F t Hin) as N.
  rewrite carriesFrom_matches in N. apply matches_false in N. tauto.
Qed.

Lemma fresh_symbols_no_clash (ts : list Transition) (a : State)
  (symbols : list jsstring) (tn t : Transition) :
  (forall c, In c symbols -> find (carriesFrom a c) ts = None) ->
  id (from tn) = id a -> symbolsOf tn = symbols ->
  In t ts -> ~ clash t tn.
Proof.
  intros W Ea Es Hin (c & E & C1 & C2).
  unfold carries in C2. rewrite Es in C2.
  apply (unchecked_symbol_not_carried ts a c t (W c C2) Hin); [congruence | exact C1].
Qed.

(** Once the check of [validateTransition] has passed,
    [createNewTransition] keeps the invariant, on the merge path and on
    the creation path. *)
Lemma createNewTransition_keeps_ClashFree (a b : State)
  (symbols : list jsstring) (newId : Z) (sim : Sim) :
  symbols <> [] -> Forall plainSymbol symbols ->
  (forall c, In c symbols -> find (carriesFrom a c) (transitions sim) = None) ->
  ClashFree (transitions sim) ->
  ClashFree (transitions
               (snd (Modular.createNewTransition a b symbols newId sim))).
Proof.
  intros Hne Hplain W CF.
  assert (RT : map trim (split comma (join commaSpace symbols)) = symbols)
    by (apply symbols_roundtrip; assumption).
  unfold Modular.createNewTransition. unfold bind at 1. unfold gets at 1.
  destruct (find (joins a b) (transitions sim)) as [ex|] eqn:Fx.
  - pose proof (find_some _ _ Fx) as [Hex Jx].
    unfold joins in Jx. apply andb_true_iff in Jx as [Jx _].
    apply Z.eqb_eq in Jx.
    rewrite filter_all.
    2:{ intros c Hc. apply negb_true_iff, includes_not_In.
        apply (unchecked_symbol_not_carried (transitions sim) a c ex);
          auto. }
    destruct symbols as [|c0 cs]; [contradiction|].
    cbn [List.length Nat.ltb Nat.leb]. unfold modify. cbn [snd transitions setTransitions].
    apply ClashFree_replace with (ex := ex); [exact Fx | reflexivity | | exact CF].
    intros t c Hin Eid Hc. unfold carries, symbolsOf in Hc.
    cbn [symbol setSymbol] in Hc.
    rewrite symbols_roundtrip in Hc.
    + apply in_app_or in Hc as [Hc | Hc]; [left; exact Hc | right].
      apply (unchecked_symbol_not_carried (transitions sim) a c t); auto.
      congruence.
    + intros E. apply app_eq_nil in E as [_ E]. discriminate E.
    + apply Forall_app. split; [apply symbolsOf_plain | exact Hplain].
  - unfold placeAndPush, bind, gets, modify.
    cbn [fst snd].
    destruct (id a =? id b)%Z.
    + cbn [snd transitions setTransitions]. apply ClashFree_snoc; [exact CF|].
      intros t Hin. eapply fresh_symbols_no_clash; try eassumption; reflexivity.
    + destruct (find (joins b a) (transitions sim)) as [rv|];
        cbn [snd transitions setTransitions].
      * pose proof (updateFirst_sameLabel (joins b a) (setOffset 10 (-1))
                      (transitions sim)
                      (fun t => conj eq_refl eq_refl)) as L.
        apply ClashFree_snoc; [eapply ClashFree_relabel; eassumption|].
        intros t' Hin C.
        destruct (Forall2_sameLabel_In _ _ L _ Hin) as (t & Ht & Lt).
        eapply (fresh_symbols_no_clash (transitions sim) a symbols
                  (setOffset (-10) 1
                     (mkTransition newId a b (join commaSpace symbols) None None))
                  t W eq_refl RT Ht).
        eapply sameLabel_clash; [apply sameLabel_sym, Lt | | exact C].
        split; reflexivity.
      * apply ClashFree_snoc; [exact CF|].
        intros t Hin. eapply fresh_symbols_no_clash; try eassumption; reflexivity.
Qed.

Lemma modular_confirm_keeps_ClashFree (input : jsstring) (a b : State)
  (newId : Z) (sim : Sim) :
  ClashFree (transitions sim) ->
  ClashFree (transitions
               (snd (Modular.confirmTransition input a b None newId sim))).
Proof.
  intros CF. unfold Modular.confirmTransition.
  destruct (trim input) as [|u rest] eqn:Ti; [exact CF|].
  destruct (List.length (parseSymbols (u :: rest)) =? 0)%nat eqn:Len; [exact CF|].
  unfold bind at 1. unfold tryCatch. unfold bind at 1.
  pose proof (validateTransition_unchanged a b (parseSymbols (u :: rest)) sim) as V.
  pose proof (validateTransition_returns a b (parseSymbols (u :: rest)) sim) as W.
  destruct (Modular.validateTransition a b (parseSymbols (u :: rest)) sim)
    as [[v|ev] s1] eqn:EV; simpl in V; subst s1; [|exact CF].
  simpl in W. destruct W as [W _]. specialize (W (ex_intro _ v eq_refl)).
  unfold ret at 1. unfold bind at 1.
  pose proof (createNewTransition_keeps_ClashFree a b (parseSymbols (u :: rest))
                newId sim) as K.
  destruct (Modular.createNewTransition a b (parseSymbols (u :: rest)) newId sim)
    as [[[]|ec] s2]; cbn [snd] in *; apply K; try exact CF;
    try apply parseSymbols_plain;
    try (intros c Hc; apply W, Hc);
    apply Nat.eqb_neq in Len; intros E; rewrite E in Len; apply Len; reflexivity.
Qed.

(** The determinism invariant holds after every sequence of requests made
    to [BaseAutomaton.confirmTransition], whether they succeed or fail. *)
Lemma modular_keeps_determinism (rs : list Request) (sim : Sim) :
  Deterministic (transitions sim) ->
  Deterministic (transitions (confirmAll rs sim)).
Proof.
  revert sim. induction rs as [|r rs IH]; intros sim D; simpl; [exact D|].
  apply IH. apply Deterministic_ClashFree.
  apply modular_confirm_keeps_ClashFree. apply Deterministic_ClashFree, D.
Qed.

(** Scenario 3 in [baseAutomaton.js]: a request for one symbol that a
    transition leaving [a] carries fails with the determinism error and
    changes nothing. *)
Lemma modular_scenario3 (input : jsstring) (a b : State) (newId : Z)
  (sim : Sim) (c : jsstring) (t : Transition) :
  parseSymbols (trim input) = [c] -> List.length c = 1%nat ->
  In t (transitions sim) -> id (from t) = id a -> carries t c ->
  Modular.confirmTransition input a b None newId sim
    = (Ret (Alert (DeterminismViolation (label a) c)), sim).
Proof.
  intros Ps Lc Hin Eid Hc. unfold Modular.confirmTransition.
  destruct (trim input) as [|u rest] eqn:Ti; [discriminate Ps|].
  rewrite Ps. cbn [List.length Nat.eqb].
  unfold bind at 1. unfold tryCatch. unfold bind at 1.
  unfold Modular.validateTransition. cbn [forEachM].
  unfold bind, gets, ret, throw. rewrite Lc. cbn [Nat.eqb].
  destruct (find (carriesFrom a c) (transitions sim)) as [d|] eqn:F; [reflexivity|].
  exfalso. eapply (unchecked_symbol_not_carried _ _ _ _ F); eassumption.
Qed.

(* ===================================================================== *)
(** * Where the two [confirmTransition]s part from the specification *)
(* ===================================================================== *)

(** C2.  The determinism invariant does not survive main.js's
    [confirmTransition]: from the deterministic automaton q0 --a--> q1,
    q0 --b--> q2, the request to add "a" from q0 to q2 finds the
    transition q0 --> q2, skips the determinism check and merges, so that
    two transitions leaving q0 carry "a".  ([BaseAutomaton.confirmTransition]
    refuses the same request with the determinism error.) *)
Theorem monolith_merge_breaks_determinism :
  Deterministic (transitions Examples.fork) /\
  (exists sim',
     Monolith.confirmTransition (str "a") Examples.q0 Examples.q2 None 99
       Examples.fork = (Ret Completed, sim') /\
     transitions sim' =
       [Examples.arrow 10 Examples.q0 Examples.q1 (str "a");
        Examples.arrow 11 Examples.q0 Examples.q2 (str "b, a")] /\
     ~ Deterministic (transitions sim')) /\
  Modular.confirmTransition (str "a") Examples.q0 Examples.q2 None 99
    Examples.fork
    = (Ret (Alert (DeterminismViolation (str "q0") (str "a"))), Examples.fork).
Proof.
  split; [|split].
  - intros i j ti tj c Hi Hj _ Ci Cj.
    destruct i as [|[|i]], j as [|[|j]]; try reflexivity; simpl in Hi, Hj;
      try (destruct i; discriminate Hi); try (destruct j; discriminate Hj);
      injection Hi as <-; injection Hj as <-;
      unfold carries in Ci, Cj; simpl in Ci, Cj;
      destruct Ci as [<- | []]; destruct Cj as [Cj | []]; discriminate Cj.
  - exists (snd (Monolith.confirmTransition (str "a") Examples.q0 Examples.q2
                   None 99 Examples.fork)).
    split; [vm_compute; reflexivity|]. split; [vm_compute; reflexivity|].
    vm_compute transitions. intros D.
    specialize (D 0%nat 1%nat _ _ (str "a") eq_refl eq_refl eq_refl).
    assert (X : 0%nat = 1%nat); [|discriminate X].
    apply D; unfold carries; simpl; tauto.
  - reflexivity.
Qed.

(** C4.  Neither [confirmTransition] checks a merge the way the
    specification describes.  main.js: with q0 --a--> q1 and q0 --b--> q2,
    the request "a" from q0 to q2 succeeds although another transition
    leaving q0 carries "a".  baseAutomaton.js: with q0 --a--> q1 only, the
    request "a,b" from q0 to q1 fails with the determinism error because of
    "a", a symbol of the very transition being merged into, and "b" is not
    added. *)
Theorem merge_check_misses_and_overshoots :
  (find (joins Examples.q0 Examples.q2) (transitions Examples.fork)
     = Some (Examples.arrow 11 Examples.q0 Examples.q2 (str "b")) /\
   carries (Examples.arrow 10 Examples.q0 Examples.q1 (str "a")) (str "a") /\
   fst (Monolith.confirmTransition (str "a") Examples.q0 Examples.q2 None 99
          Examples.fork) = Ret Completed /\
   map symbolsOf
       (transitions
          (snd (Monolith.confirmTransition (str "a") Examples.q0 Examples.q2
                  None 99 Examples.fork)))
     = [[str "a"]; [str "b"; str "a"]]) /\
  (find (joins Examples.q0 Examples.q1) (transitions Examples.single)
     = Some (Examples.arrow 10 Examples.q0 Examples.q1 (str "a")) /\
   parseSymbols (trim (str "a,b")) = [str "a"; str "b"] /\
   (forall t, In t (transitions Examples.single) -> ~ carries t (str "b")) /\
   Modular.confirmTransition (str "a,b") Examples.q0 Examples.q1 None 99
     Examples.single
     = (Ret (Alert (DeterminismViolation (str "q0") (str "a"))),
        Examples.single)).
Proof.
  split.
  - repeat split. unfold carries. simpl. tauto.
  - repeat split.
    intros t [<- | []]. unfold carries. simpl. intros [H | []]. discriminate H.
Qed.

(** C8.  With q0 --a--> q1 in the model, the request "a" from q0 to q1 (all
    requested symbols are on the transition already) is answered by
    baseAutomaton.js with the determinism error, not with 'All symbols
    already exist for this transition!': [validateTransition] runs first and
    finds "a" on the transition itself.  main.js answers the same request
    with 'All symbols already exist for this transition!'. *)
Theorem modular_duplicate_request_reports_determinism :
  find (joins Examples.q0 Examples.q1) (transitions Examples.single)
    = Some (Examples.arrow 10 Examples.q0 Examples.q1 (str "a")) /\
  parseSymbols (trim (str "a")) = [str "a"] /\
  symbolsOf (Examples.arrow 10 Examples.q0 Examples.q1 (str "a")) = [str "a"] /\
  Modular.confirmTransition (str "a") Examples.q0 Examples.q1 None 99
    Examples.single
    = (Ret (Alert (DeterminismViolation (str "q0") (str "a"))),
       Examples.single) /\
  Monolith.confirmTransition (str "a") Examples.q0 Examples.q1 None 99
    Examples.single
    = (Ret (Alert DuplicateSymbol), Examples.single).
Proof. repeat split. Qed.

(* ===================================================================== *)
(** * Lookup on a deterministic automaton *)
(* ===================================================================== *)

Lemma find_hd_filter {A} (p : A -> bool) (l : list A) :
  find p l = hd_error (filter p l).
Proof.
  induction l as [|x l IH]; simpl; [reflexivity|].
  destruct (p x); [reflexivity | exact IH].
Qed.

Lemma Permutation_filter_same {A} (p : A -> bool) (l l' : list A) :
  Permutation l l' -> Permutation (filter p l) (filter p l').
Proof.
  induction 1 as [|x l l' H IH|x y l|l l' l'' H1 IH1 H2 IH2]; simpl.
  - constructor.
  - destruct (p x); [constructor|]; exact IH.
  - destruct (p x), (p y); try apply Permutation_refl. apply perm_swap.
  - eapply Permutation_trans; eassumption.
Qed.

(** On a clash-free array at most one transition leaves a state with a
    given symbol. *)
Lemma ClashFree_one_match (ts : list Transition) (cur : State) (c : jsstring) :
  ClashFree ts ->
  filter (matches cur c) ts = [] \/ exists t, filter (matches cur c) ts = [t].
Proof.
  induction 1 as [|t ts Ht CF IH]; simpl; [left; reflexivity|].
  destruct (matches cur c t) eqn:Mt; [|exact IH].
  right. exists t. f_equal. apply filter_none. intros t' Hin.
  apply matches_false. intros [E C]. apply matches_spec in Mt as [E' C'].
  apply (Ht t' Hin). exists c. repeat split; congruence.
Qed.

(** X1.  On a deterministic automaton the lookup of [simulateInput] and
    [startStepDebug] has one possible answer: whenever some transition of
    the array leaves the current state and carries the character, [find]
    returns that very transition, wherever it stands in the array. *)
Theorem lookup_returns_the_transition (ts : list Transition) (cur : State)
  (c : jsstring) (t : Transition) :
  Deterministic ts ->
  In t ts -> id (from t) = id cur -> carries t c ->
  find (matches cur c) ts = Some t.
Proof.
  intros D Hin E C. apply Deterministic_ClashFree in D.
  assert (M : In t (filter (matches cur c) ts)).
  { apply filter_In. split; [exact Hin|]. apply matches_spec. auto. }
  rewrite find_hd_filter.
  destruct (ClashFree_one_match ts cur c D) as [F | [t' F]]; rewrite F in *.
  - destruct M.
  - destruct M as [<- | []]. reflexivity.
Qed.

Lemma lookup_returns_the_transition_witness :
  find (matches Examples.q0 (str "b")) (transitions Examples.fork)
    = Some (Examples.arrow 11 Examples.q0 Examples.q2 (str "b")).
Proof.
  apply lookup_returns_the_transition.
  - intros i j ti tj c Hi Hj _ Ci Cj.
    destruct i as [|[|i]], j as [|[|j]]; try reflexivity; simpl in Hi, Hj;
      try (destruct i; discriminate Hi); try (destruct j; discriminate Hj);
      injection Hi as <-; injection Hj as <-;
      unfold carries in Ci, Cj; simpl in Ci, Cj;
      destruct Ci as [<- | []]; destruct Cj as [Cj | []]; discriminate Cj.
  - simpl. tauto.
  - reflexivity.
  - unfold carries. simpl. tauto.
Defined.

Lemma simulateLoop_same_lookup (ts ts' : list Transition) :
  (forall cur c, find (matches cur c) ts = find (matches cur c) ts') ->
  forall input s, simulateLoop ts s input = simulateLoop ts' s input.
Proof.
  intros H. induction input as [|c rest IH]; intros s; simpl; [reflexivity|].
  rewrite H. destruct (find (matches s c) ts'); [apply IH | reflexivity].
Qed.

(** X2.  On a deterministic automaton the order of [this.transitions] does
    not matter to [simulateInput]: two simulators with the same start
    state whose transition arrays are permutations of each other accept
    the same inputs. *)
Theorem acceptance_ignores_transition_order (sim sim' : Sim) (input : jsstring) :
  Deterministic (transitions sim) ->
  Permutation (transitions sim) (transitions sim') ->
  startState sim = startState sim' ->
  simulateInput sim input = simulateInput sim' input.
Proof.
  intros D P Hs. unfold simulateInput. rewrite <- Hs.
  destruct (startState sim) as [s0|]; [|reflexivity].
  apply simulateLoop_same_lookup. intros cur c.
  rewrite !find_hd_filter.
  pose proof (Permutation_filter_same (matches cur c) _ _ P) as PF.
  apply Deterministic_ClashFree in D.
  destruct (ClashFree_one_match (transitions sim) cur c D) as [F | [t F]];
    rewrite F in *.
  - apply Permutation_nil in PF. rewrite PF. reflexivity.
  - apply Permutation_length_1_inv in PF. rewrite PF. reflexivity.
Qed.

Lemma acceptance_ignores_transition_order_witness :
  simulateInput Examples.chain (str "ab")
  = simulateInput
      (Examples.automaton
         [Examples.arrow 11 Examples.q1 Examples.q2 (str "b");
          Examples.arrow 10 Examples.q0 Examples.q1 (str "a")]
         (Some Examples.q0)) (str "ab").
Proof.
  apply acceptance_ignores_transition_order.
  - intros i j ti tj c Hi Hj E Ci Cj.
    destruct i as [|[|i]], j as [|[|j]]; try reflexivity; simpl in Hi, Hj;
      try (destruct i; discriminate Hi); try (destruct j; discriminate Hj);
      injection Hi as <-; injection Hj as <-; discriminate E.
  - apply perm_swap.
  - reflexivity.
Defined.

(* ===================================================================== *)
(** * The shape of a trace *)
(* ===================================================================== *)






(** X3.  On an input without a high surrogate (every input of the Basic
    Multilingual Plane is one), the two evaluators agree: [simulateInput]
    returns [final && accepted] of the last step of the trace, and the
    transitions recorded in the trace are, in order, the ones
    [simulateInput] takes. *)
Theorem trace_agrees_without_surrogates (sim : Sim) (s0 : State)
  (input : jsstring) :
  startState sim = Some s0 ->
  forallb (fun u => negb (isHighSurrogate u)) input = true ->
  exists steps,
    trace sim input = Some steps /\
    simulateInput sim input = lastVerdict steps /\
    recordedTransitions steps
      = visited (transitions sim) s0 (codePoints input).
Proof.
  intros Hs Hu. apply trace_agrees_unitwise; [exact Hs|].
  apply codePoints_units, Hu.
Qed.

Lemma trace_agrees_without_surrogates_witness :
  exists steps,
    trace Examples.chain (str "ab") = Some steps /\
    simulateInput Examples.chain (str "ab") = lastVerdict steps /\
    recordedTransitions steps
      = visited (transitions Examples.chain) Examples.q0 (codePoints (str "ab")).
Proof.
  exact (trace_agrees_without_surrogates Examples.chain Examples.q0 (str "ab")
           eq_refl eq_refl).
Defined.

(* ===================================================================== *)
(** * [sanitizeString] *)
(* ===================================================================== *)

Lemma trimStart_length (s : jsstring) :
  (List.length (trimStart s) <= List.length s)%nat.
Proof.
  induction s as [|u r IH]; simpl; [lia|]. destruct (isWhite u); simpl; lia.
Qed.

Lemma trimEnd_length (s : jsstring) :
  (List.length (trimEnd s) <= List.length s)%nat.
Proof.
  induction s as [|u r IH]; simpl; [lia|].
  destruct (trimEnd r) as [|w r']; [destruct (isWhite u)|]; simpl in *; lia.
Qed.

Lemma trim_length (s : jsstring) :
  (List.length (trim s) <= List.length s)%nat.
Proof.
  unfold trim. pose proof (trimEnd_length (trimStart s)).
  pose proof (trimStart_length s). lia.
Qed.

Lemma filter_length_le {A} (p : A -> bool) (l : list A) :
  (List.length (filter p l) <= List.length l)%nat.
Proof.
  induction l as [|x l IH]; simpl; [lia|]. destruct (p x); simpl; lia.
Qed.

(** A string that is short enough, free of dangerous characters and
    trimmed is left as it is. *)
Lemma sanitizeString_fixed (s : jsstring) (maxLength : nat) :
  (List.length s <= maxLength)%nat ->
  Forall (fun u => DataManager.dangerous u = false) s ->
  trim s = s ->
  DataManager.sanitizeString s maxLength = s.
Proof.
  intros L C T. unfold DataManager.sanitizeString.
  rewrite firstn_all2 by exact L.
  rewrite filter_all; [exact T|].
  intros u Hu. rewrite Forall_forall in C. rewrite (C u Hu). reflexivity.
Qed.

(** X5.  [sanitizeString(str, maxLength)] returns a string of at most
    [maxLength] units that holds none of the five dangerous characters,
    has no white space at either end and consists of units of [str];
    sanitizing its result again changes nothing. *)
Theorem sanitizeString_is_clean (s : jsstring) (maxLength : nat) :
  let r := DataManager.sanitizeString s maxLength in
  (List.length r <= maxLength)%nat /\
  Forall (fun u => DataManager.dangerous u = false /\ In u s) r /\
  trim r = r /\
  DataManager.sanitizeString r maxLength = r.
Proof.
  cbv zeta.
  assert (L : (List.length (DataManager.sanitizeString s maxLength)
               <= maxLength)%nat).
  { unfold DataManager.sanitizeString.
    pose proof (trim_length (filter (fun u => negb (DataManager.dangerous u))
                                    (firstn maxLength s))).
    pose proof (filter_length_le (fun u => negb (DataManager.dangerous u))
                                 (firstn maxLength s)).
    pose proof (firstn_le_length maxLength s). lia. }
  assert (C : Forall (fun u => DataManager.dangerous u = false /\ In u s)
                     (DataManager.sanitizeString s maxLength)).
  { apply Forall_forall. intros u Hu. unfold DataManager.sanitizeString in Hu.
    apply trim_In, filter_In in Hu as [Hin Hd]. split.
    - apply negb_true_iff, Hd.
    - revert Hin. rewrite <- (firstn_skipn maxLength s) at 2.
      intros Hin. apply in_or_app. left. exact Hin. }
  assert (T : trim (DataManager.sanitizeString s maxLength)
              = DataManager.sanitizeString s maxLength)
    by apply trim_trim.
  repeat split; try assumption.
  apply sanitizeString_fixed; try assumption.
  eapply Forall_impl; [|exact C]. intros u [H _]. exact H.
Qed.

(* ===================================================================== *)
(** * Loading and exporting an automaton *)
(* ===================================================================== *)








Lemma firstInvalidSymbol_spec (tds : list DataManager.TransitionData) :
  forall index,
    match DataManager.firstInvalidSymbol index tds with
    | Some i =>
        exists k td, i = (index + k)%nat /\ nth_error tds k = Some td /\
                     DataManager.dataSymbol td = [] /\
                     Forall (fun td' => DataManager.dataSymbol td' <> [])
                            (firstn k tds)
    | None => Forall (fun td => DataManager.dataSymbol td <> []) tds
    end.
Proof.
  induction tds as [|td tds IH]; intros index; simpl; [constructor|].
  destruct (DataManager.dataSymbol td) as [|u r] eqn:E.
  - exists 0%nat, td. rewrite Nat.add_0_r. repeat split; [exact E | constructor].
  - specialize (IH (S index)).
    destruct (DataManager.firstInvalidSymbol (S index) tds) as [i|].
    + destruct IH as (k & td' & -> & Hn & Hs & Hf).
      exists (S k), td'. repeat split; try assumption; [lia|].
      simpl. constructor; [rewrite E; discriminate | exact Hf].
    + constructor; [rewrite E; discriminate | exact IH].
Qed.

(** X6.  [loadAutomatonIntoSimulator] fails exactly when the serialised
    data is longer than 25000 or some saved transition has an empty
    symbol text; the error names the size, or else the index of the
    first such transition; and a load that fails leaves the editor as it
    was. *)
Theorem load_checks_before_it_clears (data : DataManager.AutomatonData)
  (dataSize : Z) (freshId : nat -> Z) (e : Editor) :
  (fst (DataManager.loadAutomatonIntoSimulator data dataSize freshId e) = None
   <-> (dataSize <= 25000)%Z /\
       Forall (fun td => DataManager.dataSymbol td <> [])
              (DataManager.dataTransitions data)) /\
  (forall err,
     fst (DataManager.loadAutomatonIntoSimulator data dataSize freshId e)
       = Some err ->
     snd (DataManager.loadAutomatonIntoSimulator data dataSize freshId e) = e /\
     ((err = DataManager.TooLarge dataSize /\ (25000 < dataSize)%Z) \/
      (exists i td,
         err = DataManager.InvalidSymbolAt i /\
         nth_error (DataManager.dataTransitions data) i = Some td /\
         DataManager.dataSymbol td = [] /\
         Forall (fun td' => DataManager.dataSymbol td' <> [])
                (firstn i (DataManager.dataTransitions data))))).
Proof.
  unfold DataManager.loadAutomatonIntoSimulator,
         DataManager.validateAutomatonData, DataManager.MAX_DFA_SIZE.
  pose proof (firstInvalidSymbol_spec (DataManager.dataTransitions data) 0) as V.
  destruct (Z.ltb_spec 25000 dataSize) as [L|L].
  - split.
    + simpl. split; [discriminate | intros [H _]; lia].
    + simpl. intros err [= <-]. split; [reflexivity | left; auto].
  - destruct (DataManager.firstInvalidSymbol 0 (DataManager.dataTransitions data))
      as [i|].
    + destruct V as (k & td & -> & Hn & Hs & Hf). simpl. split.
      * split; [discriminate|]. intros [_ H]. exfalso.
        rewrite Forall_forall in H. apply (H td); [|exact Hs].
        eapply nth_error_In, Hn.
      * intros err [= <-]. split; [reflexivity|]. right. exists k, td. auto.
    + split.
      * destruct (DataManager.restoreStates _ _ _). simpl. split; auto.
      * destruct (DataManager.restoreStates _ _ _). simpl. discriminate.
Qed.









(* ===================================================================== *)
(** * Deleting a transition *)
(* ===================================================================== *)

Lemma ClashFree_filter (p : Transition -> bool) (ts : list Transition) :
  ClashFree ts -> ClashFree (filter p ts).
Proof.
  induction 1 as [|t ts Ht CF IH]; simpl; [constructor|].
  destruct (p t); [|exact IH]. constructor; [|exact IH].
  intros t' Hin. apply Ht. apply filter_In in Hin. tauto.
Qed.

Lemma filter_updateFirst_labelled (keep : Z -> bool) (q : Transition -> bool)
  (f : Transition -> Transition) (l : list Transition) :
  (forall t, labelled (f t) = labelled t) ->
  map labelled (filter (fun t => keep (tid t)) (updateFirst q f l))
  = map labelled (filter (fun t => keep (tid t)) l).
Proof.
  intros Hf. induction l as [|x l IH]; simpl; [reflexivity|].
  destruct (q x); simpl.
  - assert (E : tid (f x) = tid x)
      by (pose proof (Hf x) as H; unfold labelled in H; congruence).
    rewrite E. destruct (keep (tid x)); simpl; [rewrite Hf|]; reflexivity.
  - destruct (keep (tid x)); simpl; [f_equal|]; exact IH.
Qed.

Lemma deleteTransition_result (sel : Transition) (sim : Sim) :
  Base.deleteTransition sel sim
  = (Ret tt,
     setSelectedTransition None
       (setTransitions
          (filter (fun t => negb (tid t =? tid sel)%Z)
             (updateFirst
                (fun t => (id (from t) =? id (to sel))%Z
                          && (id (to t) =? id (from sel))%Z
                          && match offset t with
                             | Some o => negb (o =? 0)%Z
                             | None => false
                             end)
                (fun t => mkTransition (tid t) (from t) (to t) (symbol t)
                                       (Some 0%Z) (Some 0%Z))
                (transitions sim))) sim)).
Proof. reflexivity. Qed.

(** X9.  [deleteTransition(sel)] returns, removes every transition whose
    [id] is that of [sel] and no other, leaves the identifier, the two
    states and the symbol text of the remaining transitions as they were
    (only the layout of a transition in the opposite direction may be
    reset), touches neither the states nor the start state, clears the
    transition selection and keeps a deterministic automaton
    deterministic.  Deleting the same transition once more changes none of
    this: the second call is harmless. *)
Theorem deleteTransition_removes_by_id (sel : Transition) (sim : Sim) :
  exists sim',
    Base.deleteTransition sel sim = (Ret tt, sim') /\
    states sim' = states sim /\ startState sim' = startState sim /\
    selectedState sim' = selectedState sim /\
    selectedTransition sim' = None /\
    map labelled (transitions sim')
      = map labelled (filter (fun t => negb (tid t =? tid sel)%Z)
                             (transitions sim)) /\
    (forall t, In t (transitions sim') -> tid t <> tid sel) /\
    (Deterministic (transitions sim) -> Deterministic (transitions sim')) /\
    map labelled (transitions (snd (Base.deleteTransition sel sim')))
      = map labelled (transitions sim').
Proof.
  rewrite deleteTransition_result. eexists. split; [reflexivity|].
  rewrite deleteTransition_result.
  cbn [snd states startState selectedState selectedTransition transitions
       setTransitions setSelectedTransition].
  assert (Hl : forall t, labelled (mkTransition (tid t) (from t) (to t) (symbol t)
                                      (Some 0%Z) (Some 0%Z)) = labelled t)
    by reflexivity.
  do 4 (split; [reflexivity|]). split; [|split; [|split]].
  - apply (filter_updateFirst_labelled (fun k => negb (k =? tid sel)%Z)).
    exact Hl.
  - intros t H.
    apply filter_In in H as [_ H]. apply negb_true_iff, Z.eqb_neq in H. exact H.
  - intros D. apply Deterministic_ClashFree. apply ClashFree_filter.
    eapply ClashFree_relabel; [|apply Deterministic_ClashFree, D].
    apply updateFirst_sameLabel. intros t. split; reflexivity.
  - rewrite (filter_updateFirst_labelled (fun k => negb (k =? tid sel)%Z)) by exact Hl.
    f_equal. apply filter_all. intros t Ht. apply filter_In in Ht. tauto.
Qed.

Lemma deleteTransition_removes_by_id_witness :
  exists sim',
    Base.deleteTransition (Examples.arrow 10 Examples.q0 Examples.q1 (str "a"))
      Examples.chain = (Ret tt, sim') /\
    Deterministic (transitions sim').
Proof.
  destruct (deleteTransition_removes_by_id
              (Examples.arrow 10 Examples.q0 Examples.q1 (str "a"))
              Examples.chain)
    as (sim' & H & _ & _ & _ & _ & _ & _ & D & _).
  exists sim'. split; [exact H|]. apply D.
  intros i j ti tj c Hi Hj E Ci Cj.
  destruct i as [|[|i]], j as [|[|j]]; try reflexivity; simpl in Hi, Hj;
    try (destruct i; discriminate Hi); try (destruct j; discriminate Hj);
    injection Hi as <-; injection Hj as <-; discriminate E.
Defined.

(* ===================================================================== *)
(** * Adding a state *)
(* ===================================================================== *)




(* ===================================================================== *)
(** * What a session of edits maintains *)
(* ===================================================================== *)

































(* ===================================================================== *)
(** * What [validateTransition] decides, and where the variants agree *)
(* ===================================================================== *)

Lemma length_loop (l : list jsstring) (s : Sim) :
  forEachM (fun c => if (List.length c =? 1)%nat then ret tt
                     else throw InvalidSymbol) l s
  = (if forallb (fun c => (List.length c =? 1)%nat) l
     then Ret tt else Throw InvalidSymbol, s).
Proof.
  induction l as [|c l IH]; [reflexivity|].
  cbn [forEachM forallb]. unfold bind.
  destruct (List.length c =? 1)%nat; [|reflexivity].
  unfold ret at 1. rewrite IH. reflexivity.
Qed.

Lemma determinism_loop (a : State) (l : list jsstring) (s : Sim) :
  forEachM (fun c =>
      ts <- gets transitions ;;
      match find (carriesFrom a c) ts with
      | Some _ => throw (DeterminismViolation (label a) c)
      | None => ret tt
      end) l s
  = (match find (fun c => match find (carriesFrom a c) (transitions s) with
                          | Some _ => true
                          | None => false
                          end) l with
     | Some c => Throw (DeterminismViolation (label a) c)
     | None => Ret tt
     end, s).
Proof.
  induction l as [|c l IH]; [reflexivity|].
  cbn [forEachM find]. unfold bind at 1. unfold bind at 1. unfold gets at 1.
  destruct (find (carriesFrom a c) (transitions s)); [reflexivity|].
  unfold ret at 1. exact IH.
Qed.

(** [validateTransition] as a decision: the length check on every symbol
    first, then the first symbol that a transition leaving [a] carries. *)
Lemma validateTransition_decides (a b : State) (symbols : list jsstring)
  (s : Sim) :
  Modular.validateTransition a b symbols s
  = (if forallb (fun c => (List.length c =? 1)%nat) symbols then
       match find (fun c => match find (carriesFrom a c) (transitions s) with
                            | Some _ => true
                            | None => false
                            end) symbols with
       | Some c => Throw (DeterminismViolation (label a) c)
       | None => Ret true
       end
     else Throw InvalidSymbol, s).
Proof.
  unfold Modular.validateTransition. unfold bind at 1. rewrite length_loop.
  destruct (forallb (fun c => (List.length c =? 1)%nat) symbols);
    [|reflexivity].
  unfold bind at 1. rewrite determinism_loop.
  match goal with |- context [find ?p symbols] =>
    destruct (find p symbols) end; reflexivity.
Qed.

(** Symbols that pass the determinism check are not on the transition that
    joins [a] to [b]. *)
Lemma validated_symbols_are_new (a b : State) (symbols : list jsstring)
  (ts : list Transition) (t : Transition) :
  find (fun c => match find (carriesFrom a c) ts with
                 | Some _ => true
                 | None => false
                 end) symbols = None ->
  find (joins a b) ts = Some t ->
  filter (fun c => negb (includes (symbolsOf t) c)) symbols = symbols.
Proof.
  intros V Ft. apply filter_all. intros c Hc. apply negb_true_iff.
  pose proof (proj1 (find_absent _ _) V c Hc) as Fc. cbv beta in Fc.
  destruct (find (carriesFrom a c) ts) eqn:E; [discriminate Fc|].
  pose proof (proj1 (find_absent _ _) E) as N.
  apply find_some in Ft as [Ht Jt]. specialize (N t Ht).
  unfold carriesFrom in N. unfold joins in Jt.
  apply andb_true_iff in Jt as [Jt _]. rewrite Jt in N. exact N.
Qed.

(** [BaseAutomaton.confirmTransition] with the checks of
    [validateTransition] written out. *)
Lemma modular_confirm_decides (input : jsstring) (a b : State)
  (editingTransition : option nat) (newId : Z) (sim : Sim) :
  Modular.confirmTransition input a b editingTransition newId sim
  = match trim input with
    | [] => (Ret (Alert NoSymbolEntered), sim)
    | _ =>
      let symbols := parseSymbols (trim input) in
      if (List.length symbols =? 0)%nat then (Ret (Alert NoValidSymbols), sim)
      else if forallb (fun c => (List.length c =? 1)%nat) symbols then
        match find (fun c =>
                      match find (carriesFrom a c) (transitions sim) with
                      | Some _ => true
                      | None => false
                      end) symbols with
        | Some c => (Ret (Alert (DeterminismViolation (label a) c)), sim)
        | None =>
            (match editingTransition with
             | Some i =>
                 modify (fun s => setTransitions
                           (updateAt i (setSymbol (join commaSpace symbols))
                                     (transitions s)) s)
             | None => Modular.createNewTransition a b symbols newId
             end ;; ret Completed) sim
        end
      else (Ret (Alert InvalidSymbol), sim)
    end.
Proof.
  unfold Modular.confirmTransition.
  destruct (trim input) as [|u rest]; [reflexivity|]. cbv zeta.
  destruct (List.length (parseSymbols (u :: rest)) =? 0)%nat; [reflexivity|].
  unfold bind at 1. unfold tryCatch. unfold bind at 1.
  rewrite validateTransition_decides.
  destruct (forallb (fun c => (List.length c =? 1)%nat)
              (parseSymbols (u :: rest))); [|reflexivity].
  match goal with |- context [find ?p (parseSymbols (u :: rest))] =>
    destruct (find p (parseSymbols (u :: rest))) end; reflexivity.
Qed.

(** X12.  The [confirmTransition] of main.js and the one of
    baseAutomaton.js (with dfaSimulator.js's [validateTransition]) return
    the same outcome and leave the same model on every dialog text, pair of
    states and mode, with one exception: an edit, or a request between two
    states that a transition joins already, that baseAutomaton.js refuses
    with the determinism error.  There main.js completes the call or
    reports that all symbols exist. *)
Theorem confirmTransition_variants_agree (input : jsstring) (a b : State)
  (editingTransition : option nat) (newId : Z) (sim : Sim) :
  Monolith.confirmTransition input a b editingTransition newId sim
    = Modular.confirmTransition input a b editingTransition newId sim
  \/
  ((exists c, Modular.confirmTransition input a b editingTransition newId sim
              = (Ret (Alert (DeterminismViolation (label a) c)), sim)) /\
   (editingTransition <> None \/
    find (joins a b) (transitions sim) <> None) /\
   (fst (Monolith.confirmTransition input a b editingTransition newId sim)
      = Ret Completed \/
    fst (Monolith.confirmTransition input a b editingTransition newId sim)
      = Ret (Alert DuplicateSymbol))).
Proof.
  rewrite modular_confirm_decides. unfold Monolith.confirmTransition.
  destruct (trim input) as [|u rest]; [left; reflexivity|]. cbv zeta.
  destruct (List.length (parseSymbols (u :: rest)) =? 0)%nat eqn:Len;
    [left; reflexivity|].
  set (symbols := parseSymbols (u :: rest)) in *.
  destruct (forallb (fun c => (List.length c =? 1)%nat) symbols);
    [|left; reflexivity].
  cbn [negb].
  destruct (find (fun c => match find (carriesFrom a c) (transitions sim) with
                           | Some _ => true
                           | None => false
                           end) symbols) as [c|] eqn:V.
  - destruct editingTransition as [i|].
    + right. split; [exists c; reflexivity|]. split; [left; discriminate|].
      left. reflexivity.
    + unfold bind, gets, modify, ret.
      destruct (find (joins a b) (transitions sim)) as [t|] eqn:Ft.
      * right. split; [exists c; reflexivity|]. split; [right; discriminate|].
        destruct (0 <? List.length
                         (filter (fun c0 => negb (includes (symbolsOf t) c0))
                                 symbols))%nat; [left|right]; reflexivity.
      * left. rewrite V. reflexivity.
  - left. destruct editingTransition as [i|]; [reflexivity|].
    unfold Modular.createNewTransition, bind, gets.
    destruct (find (joins a b) (transitions sim)) as [t|] eqn:Ft.
    + rewrite (validated_symbols_are_new a b symbols _ t V Ft).
      destruct symbols as [|c0 cs]; [discriminate Len|].
      cbn [List.length Nat.ltb Nat.leb]. reflexivity.
    + rewrite V. reflexivity.
Qed.

Lemma parseSymbols_nonempty_input (input : jsstring) :
  parseSymbols input <> [] -> input <> [].
Proof. intros H ->. apply H. reflexivity. Qed.



(** X13.  The order in which baseAutomaton.js refuses a request or an
    edit: when some symbol of the dialog text is not one code unit long the
    call alerts 'Each symbol must be exactly one character!', whatever the
    transitions are; when all are, the call alerts the determinism error
    for the first symbol of the text that a transition leaving [a] carries,
    the transition being edited and the one joining [a] to [b] included.
    Either way the simulator is unchanged. *)
Theorem modular_refuses_in_order (input : jsstring) (a b : State)
  (editingTransition : option nat) (newId : Z) (sim : Sim) :
  parseSymbols (trim input) <> [] ->
  ((exists c, In c (parseSymbols (trim input)) /\ List.length c <> 1%nat) ->
   Modular.confirmTransition input a b editingTransition newId sim
     = (Ret (Alert InvalidSymbol), sim)) /\
  (forall pre c post t,
     parseSymbols (trim input) = pre ++ c :: post ->
     (forall d, In d (parseSymbols (trim input)) -> List.length d = 1%nat) ->
     (forall d t', In d pre -> In t' (transitions sim) ->
                   id (from t') = id a -> ~ carries t' d) ->
     In t (transitions sim) -> id (from t) = id a -> carries t c ->
     Modular.confirmTransition input a b editingTransition newId sim
       = (Ret (Alert (DeterminismViolation (label a) c)), sim)).
Proof.
  intros Hne. rewrite modular_confirm_decides.
  pose proof (parseSymbols_nonempty_input _ Hne) as Hin.
  destruct (trim input) as [|u rest]; [contradiction Hin; reflexivity|].
  cbv zeta. set (symbols := parseSymbols (u :: rest)) in *.
  assert (Len : (List.length symbols =? 0)%nat = false)
    by (destruct symbols; [contradiction Hne; reflexivity | reflexivity]).
  rewrite Len. split.
  - intros (c & Hc & Lc).
    replace (forallb (fun c => (List.length c =? 1)%nat) symbols) with false;
      [reflexivity|].
    symmetry. apply not_true_is_false. intros F.
    rewrite forallb_forall in F. apply Lc, Nat.eqb_eq, F, Hc.
  - intros pre c post t Hs Hlen Hpre Ht Eid Hc.
    replace (forallb (fun c => (List.length c =? 1)%nat) symbols) with true.
    2:{ symmetry. apply forallb_forall. intros d Hd. apply Nat.eqb_eq, Hlen, Hd. }
    replace (find (fun c0 => match find (carriesFrom a c0) (transitions sim) with
                             | Some _ => true
                             | None => false
                             end) symbols) with (Some c); [reflexivity|].
    symmetry. apply find_first. exists pre, post. split; [exact Hs|]. split.
    + destruct (find (carriesFrom a c) (transitions sim)) eqn:F; [reflexivity|].
      exfalso. exact (unchecked_symbol_not_carried _ _ _ _ F Ht Eid Hc).
    + intros d Hd.
      destruct (find (carriesFrom a d) (transitions sim)) as [t'|] eqn:F;
        [|reflexivity].
      exfalso. apply find_some in F as [Ht' C]. unfold carriesFrom in C.
      apply andb_true_iff in C as [C1 C2]. apply Z.eqb_eq in C1.
      apply (Hpre d t' Hd Ht' C1). apply includes_In, C2.
Qed.

Lemma modular_refuses_in_order_witness :
  Modular.confirmTransition (str "z, a, b") Examples.q0 Examples.q1 (Some 0%nat)
    99 Examples.fork
  = (Ret (Alert (DeterminismViolation (str "q0") (str "a"))), Examples.fork).
Proof.
  assert (Hne : parseSymbols (trim (str "z, a, b")) <> [])
    by (vm_compute; discriminate).
  refine (proj2 (modular_refuses_in_order (str "z, a, b") Examples.q0
                   Examples.q1 (Some 0%nat) 99 Examples.fork Hne)
            [str "z"] (str "a") [str "b"]
            (Examples.arrow 10 Examples.q0 Examples.q1 (str "a"))
            _ _ _ _ _ _).
  - vm_compute. reflexivity.
  - intros d Hd. vm_compute in Hd.
    destruct Hd as [<- | [<- | [<- | []]]]; reflexivity.
  - intros d t' Hd Ht' _ Hc. vm_compute in Hd, Ht'.
    destruct Hd as [<- | []].
    destruct Ht' as [<- | [<- | []]]; vm_compute in Hc;
      destruct Hc as [Hc | []]; discriminate Hc.
  - vm_compute. auto.
  - reflexivity.
  - vm_compute. auto.
Defined.



(* ===================================================================== *)
(** * Deleting, clearing, stepping and reading a prefix *)
(* ===================================================================== *)

(** X15.  The [confirmDelete] of main.js, which deletes in place, and the
    one of baseAutomaton.js, which calls [deleteTransition] and
    [deleteState], are the same function of the simulator: a selected
    transition is deleted first and the selected state is then kept; with
    no transition selected the selected state is deleted; with nothing
    selected nothing changes. *)
Theorem confirmDelete_variants_agree (sim : Sim) :
  Base.confirmDelete sim = Monolith.confirmDelete sim.
Proof.
  unfold Base.confirmDelete, Monolith.confirmDelete, Base.deleteTransition,
    Modular.deleteState, bind, gets.
  destruct (selectedTransition sim) as [t|], (selectedState sim) as [st|];
    reflexivity.
Qed.

Lemma click_moves (c : Click) (sim : Sim) :
  InBounds sim ->
  click c sim
  = (Ret tt,
     setCurrentDebugStep
       (moved (Z.of_nat (List.length (debugSteps sim)))
              (currentDebugStep sim) c) sim).
Proof.
  intros B. destruct c; unfold click, moved.
  - unfold stepNext, bind, gets, modify.
    destruct (Z.ltb_spec (currentDebugStep sim)
                (Z.of_nat (List.length (debugSteps sim)) - 1)) as [L|L].
    + rewrite Z.min_l by lia. apply updateDebugDisplay_in_bounds.
      unfold InBounds in *. simpl. lia.
    + rewrite Z.min_r by lia.
      replace (Z.of_nat (List.length (debugSteps sim)) - 1)%Z
        with (currentDebugStep sim) by (unfold InBounds in B; lia).
      rewrite setCurrentDebugStep_same. reflexivity.
  - unfold stepPrev, bind, gets, modify.
    destruct (Z.ltb_spec 0 (currentDebugStep sim)) as [L|L].
    + rewrite Z.max_l by lia. apply updateDebugDisplay_in_bounds.
      unfold InBounds in *. simpl. lia.
    + rewrite Z.max_r by lia.
      replace 0%Z with (currentDebugStep sim) by (unfold InBounds in B; lia).
      rewrite setCurrentDebugStep_same. reflexivity.
Qed.

Lemma moved_in_bounds (len i : Z) (c : Click) :
  (0 <= i <= len - 1)%Z -> (0 <= moved len i c <= len - 1)%Z.
Proof. destruct c; unfold moved; lia. Qed.

(** X16.  Where the step debugger stands after any sequence of clicks on
    its two buttons: starting inside the trace, every click returns, the
    position is the one obtained by moving one step per click and stopping
    at both ends of the trace, and nothing else in the simulator changes.
    In particular [stepPrev] undoes [stepNext] except on the last step, and
    [stepNext] undoes [stepPrev] except on the first. *)
Theorem debugger_position_after_clicks (cs : list Click) (sim : Sim) :
  InBounds sim ->
  runClicks cs sim
  = (Ret tt,
     setCurrentDebugStep
       (fold_left (moved (Z.of_nat (List.length (debugSteps sim)))) cs
                  (currentDebugStep sim)) sim) /\
  ((currentDebugStep sim < Z.of_nat (List.length (debugSteps sim)) - 1)%Z ->
   runClicks [Next; Prev] sim = (Ret tt, sim)) /\
  ((0 < currentDebugStep sim)%Z ->
   runClicks [Prev; Next] sim = (Ret tt, sim)).
Proof.
  intros B.
  assert (G : forall cs sim, InBounds sim ->
            runClicks cs sim
            = (Ret tt,
               setCurrentDebugStep
                 (fold_left (moved (Z.of_nat (List.length (debugSteps sim)))) cs
                            (currentDebugStep sim)) sim)).
  { clear. induction cs as [|c cs IH]; intros sim B.
    - simpl. rewrite setCurrentDebugStep_same. reflexivity.
    - unfold runClicks in *. cbn [forEachM fold_left]. unfold bind at 1.
      rewrite (click_moves c sim B). rewrite IH.
      + reflexivity.
      + unfold InBounds in *. simpl. apply moved_in_bounds, B. }
  split; [apply G, B|]. split; intros L; rewrite (G _ _ B); simpl.
  - rewrite Z.min_l, Z.max_l by (unfold InBounds in B; lia).
    replace (currentDebugStep sim + 1 - 1)%Z with (currentDebugStep sim) by lia.
    rewrite setCurrentDebugStep_same. reflexivity.
  - rewrite Z.max_l, Z.min_l by (unfold InBounds in B; lia).
    replace (currentDebugStep sim - 1 + 1)%Z with (currentDebugStep sim) by lia.
    rewrite setCurrentDebugStep_same. reflexivity.
Qed.

Lemma debugger_position_after_clicks_witness :
  let sim := snd (startStepDebug (str "ab") Examples.chain) in
  InBounds sim /\
  runClicks [Next; Next; Next; Next; Prev] sim
  = (Ret tt, setCurrentDebugStep 2 sim).
Proof.
  intros sim.
  assert (B : InBounds sim) by (vm_compute; split; discriminate).
  split; [exact B|].
  exact (proj1 (debugger_position_after_clicks
                  [Next; Next; Next; Next; Prev] sim B)).
Defined.

(** X17.  [confirmClearAll] brings the states, the transitions, the
    selection, the start state, the counter and the debugger back to what
    the constructor sets, the text of the last debugged string apart; so
    the state added next is q0 with identifier 0 again, and it is the start
    state. *)
Theorem confirmClearAll_starts_over (e : Editor) :
  Base.confirmClearAll e
  = mkEditor (setDebugString (debugString (simulator e)) (simulator newEditor)) 0
  /\
  fst (Base.addState (Base.confirmClearAll e)) = mkState 0 false (str "q0") /\
  states (simulator (snd (Base.addState (Base.confirmClearAll e))))
  = [mkState 0 false (str "q0")] /\
  startState (simulator (snd (Base.addState (Base.confirmClearAll e))))
  = Some (mkState 0 false (str "q0")) /\
  transitions (simulator (snd (Base.addState (Base.confirmClearAll e)))) = [] /\
  stateCounter (snd (Base.addState (Base.confirmClearAll e))) = 1%Z.
Proof.
  destruct e as [[sts ts st sel selT dm ds dsteps cur] n].
  repeat split.
Qed.

Lemma codePoints_app_units (u v : jsstring) :
  forallb (fun x => negb (isHighSurrogate x)) u = true ->
  codePoints (u ++ v) = units u ++ codePoints v.
Proof.
  induction u as [|x r IH]; [reflexivity|].
  cbn [forallb]. intros H. apply andb_true_iff in H as [Hx Hr].
  apply negb_true_iff in Hx. cbn [app units map codePoints].
  rewrite Hx. cbn [andb]. fold (units r). rewrite <- (IH Hr).
  destruct (r ++ v) as [|y w] eqn:E; [|reflexivity].
  apply app_eq_nil in E as [-> ->]. reflexivity.
Qed.

Lemma simulateLoop_app (ts : list Transition) (u v : list jsstring) :
  forall q, simulateLoop ts q (u ++ v)
            = match reached ts q u with
              | Some q' => simulateLoop ts q' v
              | None => false
              end.
Proof.
  induction u as [|c u IH]; intros q; [reflexivity|].
  cbn [app simulateLoop reached].
  destruct (find (matches q c) ts) as [t|]; [apply IH | reflexivity].
Qed.

(** X18.  [simulateInput] reads its input from left to right and keeps
    nothing but the current state: on an input [u ++ v] whose part [u] has
    no high surrogate, the verdict is the verdict on [v] of the same
    automaton started in the state that [u] leads to, and [false] when the
    automaton has no transition for some character of [u]. *)
Theorem simulateInput_reads_prefix_first (sim : Sim) (s0 : State)
  (u v : jsstring) :
  startState sim = Some s0 ->
  forallb (fun x => negb (isHighSurrogate x)) u = true ->
  simulateInput sim (u ++ v)
  = match reached (transitions sim) s0 (units u) with
    | Some q => simulateInput (setStartState (Some q) sim) v
    | None => false
    end.
Proof.
  intros Hs Hu. unfold simulateInput. rewrite Hs.
  rewrite (codePoints_app_units u v Hu), simulateLoop_app.
  destruct (reached (transitions sim) s0 (units u)); reflexivity.
Qed.

Lemma simulateInput_reads_prefix_first_witness :
  simulateInput Examples.chain (str "a" ++ str "b")
  = simulateInput (setStartState (Some Examples.q1) Examples.chain) (str "b").
Proof.
  exact (simulateInput_reads_prefix_first Examples.chain Examples.q0
           (str "a") (str "b") eq_refl eq_refl).
Defined.

(* ===================================================================== *)
(** * State objects shared through references *)
(* ===================================================================== *)

Lemma find_view (st : Shared.Store) (cur : Shared.Ref) (c : jsstring)
  (l : list Shared.Arrow) :
  find (matches (Shared.deref st cur) c) (map (Shared.viewArrow st) l)
  = option_map (Shared.viewArrow st) (find (Shared.matches st cur c) l).
Proof.
  induction l as [|a l IH]; [reflexivity|].
  cbn [map find].
  change (matches (Shared.deref st cur) c (Shared.viewArrow st a))
    with (Shared.matches st cur c a).
  destruct (Shared.matches st cur c a); [reflexivity | exact IH].
Qed.

Lemma simulateLoop_view (st : Shared.Store) (input : list jsstring) :
  forall cur,
    Shared.simulateLoop st cur input
    = simulateLoop (transitions (Shared.view st)) (Shared.deref st cur) input.
Proof.
  induction input as [|c rest IH]; intros cur; [reflexivity|].
  cbn [Shared.simulateLoop simulateLoop Shared.view transitions].
  rewrite find_view.
  destruct (find (Shared.matches st cur c) (Shared.arrows st)) as [a|];
    [|reflexivity].
  cbn [option_map]. rewrite IH. reflexivity.
Qed.

(** X19.  Reading the state objects through their references, as the
    JavaScript does, or copying them into the records of the transitions,
    as the model of [simulateInput] above does, gives the same verdict on
    every store and every input. *)
Theorem simulateInput_on_store_is_on_view (st : Shared.Store)
  (input : jsstring) :
  Shared.simulateInput st input = simulateInput (Shared.view st) input.
Proof.
  unfold Shared.simulateInput, simulateInput.
  cbn [Shared.view startState].
  destruct (Shared.startRef st) as [s|]; [|reflexivity].
  cbn [option_map]. apply simulateLoop_view.
Qed.

Lemma nth_updateAt {A} (f : A -> A) (d : A) (l : list A) :
  forall r r',
    nth r' (updateAt r f l) d
    = if (r' =? r)%nat && (r <? List.length l)%nat then f (nth r l d)
      else nth r' l d.
Proof.
  induction l as [|x l IH]; intros r r'.
  - destruct r, r'; simpl; try reflexivity; rewrite ?andb_false_r; reflexivity.
  - destruct r as [|r], r' as [|r']; try reflexivity.
    cbn [updateAt nth List.length]. rewrite IH. reflexivity.
Qed.

Lemma deref_setObject (r : Shared.Ref) (f : State -> State)
  (st : Shared.Store) (r' : Shared.Ref) :
  (r < List.length (Shared.objects st))%nat ->
  Shared.deref (Shared.setObject r f st) r'
  = if (r' =? r)%nat then f (Shared.deref st r) else Shared.deref st r'.
Proof.
  intros H. unfold Shared.deref, Shared.setObject. cbn [Shared.objects].
  rewrite nth_updateAt. apply Nat.ltb_lt in H. rewrite H, andb_true_r.
  reflexivity.
Qed.

Lemma setObject_same_ids (r : Shared.Ref) (f : State -> State)
  (st : Shared.Store) :
  (forall q, id (f q) = id q) ->
  forall r', id (Shared.deref (Shared.setObject r f st) r')
             = id (Shared.deref st r').
Proof.
  intros Hf r'. unfold Shared.deref, Shared.setObject. cbn [Shared.objects].
  rewrite nth_updateAt.
  destruct ((r' =? r)%nat && (r <? List.length (Shared.objects st))%nat) eqn:E;
    [|reflexivity].
  apply andb_true_iff in E as [E _]. apply Nat.eqb_eq in E. subst r'.
  apply Hf.
Qed.

Lemma find_same_test {A} (p q : A -> bool) (l : list A) :
  (forall x, p x = q x) -> find p l = find q l.
Proof.
  intros H. induction l as [|x l IH]; [reflexivity|].
  simpl. rewrite H, IH. reflexivity.
Qed.

(** The path of [simulateInput] depends on the identifiers only. *)
Lemma endOfLoop_same_ids (st st' : Shared.Store) (input : list jsstring) :
  Shared.arrows st' = Shared.arrows st ->
  (forall r, id (Shared.deref st' r) = id (Shared.deref st r)) ->
  forall cur, Shared.endOfLoop st' cur input = Shared.endOfLoop st cur input.
Proof.
  intros Ha Hid. induction input as [|c rest IH]; intros cur; [reflexivity|].
  cbn [Shared.endOfLoop]. rewrite Ha.
  replace (find (Shared.matches st' cur c) (Shared.arrows st))
    with (find (Shared.matches st cur c) (Shared.arrows st)).
  - destruct (find (Shared.matches st cur c) (Shared.arrows st)) as [a|];
      [apply IH | reflexivity].
  - apply find_same_test. intros a. unfold Shared.matches. rewrite !Hid.
    reflexivity.
Qed.

Lemma simulateLoop_endOfLoop (st : Shared.Store) (input : list jsstring) :
  forall cur,
    Shared.simulateLoop st cur input
    = match Shared.endOfLoop st cur input with
      | Some e => isFinal (Shared.deref st e)
      | None => false
      end.
Proof.
  induction input as [|c rest IH]; intros cur; [reflexivity|].
  cbn [Shared.simulateLoop Shared.endOfLoop].
  destruct (find (Shared.matches st cur c) (Shared.arrows st)) as [a|];
    [apply IH | reflexivity].
Qed.

(** X20.  [toggleFinalState] assigns to the selected state object, which
    the transitions and the start state share: with no state selected it
    alerts and changes nothing; otherwise the object has its final flag
    negated wherever it is used, every other object is as before, and the
    verdict of [simulateInput] is negated on exactly the inputs whose run
    ends in that object. *)
Theorem toggleFinalState_flips_runs_ending_there (st : Shared.Store) :
  (Shared.selectedRef st = None -> Shared.toggleFinalState st = (false, st)) /\
  (forall r,
     Shared.selectedRef st = Some r ->
     (r < List.length (Shared.objects st))%nat ->
     let st' := snd (Shared.toggleFinalState st) in
     fst (Shared.toggleFinalState st) = true /\
     (forall r',
        Shared.deref st' r'
        = if (r' =? r)%nat
          then mkState (id (Shared.deref st r))
                       (negb (isFinal (Shared.deref st r)))
                       (label (Shared.deref st r))
          else Shared.deref st r') /\
     (forall input,
        Shared.simulateInput st' input
        = if Shared.endsIn st r input
          then negb (Shared.simulateInput st input)
          else Shared.simulateInput st input)).
Proof.
  unfold Shared.toggleFinalState. split; [intros ->; reflexivity|].
  intros r -> Hr. cbn [fst snd].
  set (f := fun q => mkState (id q) (negb (isFinal q)) (label q)).
  split; [reflexivity|]. split.
  - intros r'. apply (deref_setObject r f st r' Hr).
  - intros input. unfold Shared.simulateInput, Shared.endsIn.
    cbn [Shared.setObject Shared.startRef].
    destruct (Shared.startRef st) as [s|]; [|reflexivity].
    rewrite !simulateLoop_endOfLoop.
    rewrite (endOfLoop_same_ids st (Shared.setObject r f st));
      [|reflexivity | apply setObject_same_ids; reflexivity].
    destruct (Shared.endOfLoop st s (codePoints input)) as [e|];
      [|reflexivity].
    rewrite (deref_setObject r f st e Hr).
    destruct (Nat.eqb_spec e r) as [->|]; reflexivity.
Qed.

Lemma toggleFinalState_flips_runs_ending_there_witness :
  let st := Shared.mkStore [Examples.q0; Examples.q1] [0%nat; 1%nat]
              [Shared.mkArrow 10 0 1 (str "a") None None]
              (Some 0%nat) (Some 1%nat) None in
  Shared.simulateInput st (str "a") = false /\
  Shared.simulateInput (snd (Shared.toggleFinalState st)) (str "a") = true.
Proof.
  intros st. split; [reflexivity|].
  assert (Hs : Shared.selectedRef st = Some 1%nat) by reflexivity.
  assert (Hr : (1 < List.length (Shared.objects st))%nat) by (simpl; lia).
  exact (proj2 (proj2 (proj2 (toggleFinalState_flips_runs_ending_there st)
                         1%nat Hs Hr)) (str "a")).
Defined.

(** X21.  [confirmRename] assigns the trimmed text to the label of the
    state object that [renameState] remembered: with an empty or blank
    text, or with no state remembered, nothing changes; otherwise that
    object has the new label wherever it is used, every other object, every
    identifier and final flag is as before, and no verdict of
    [simulateInput] changes. *)
Theorem confirmRename_changes_the_label_only (renameInput : jsstring)
  (st : Shared.Store) :
  (trim renameInput = [] \/ Shared.pendingRenameState st = None ->
   Shared.confirmRename renameInput st = st) /\
  (forall r,
     trim renameInput <> [] ->
     Shared.pendingRenameState st = Some r ->
     (r < List.length (Shared.objects st))%nat ->
     forall r',
       Shared.deref (Shared.confirmRename renameInput st) r'
       = if (r' =? r)%nat
         then mkState (id (Shared.deref st r)) (isFinal (Shared.deref st r))
                      (trim renameInput)
         else Shared.deref st r') /\
  (forall input,
     Shared.simulateInput (Shared.confirmRename renameInput st) input
     = Shared.simulateInput st input).
Proof.
  unfold Shared.confirmRename. split; [|split].
  - intros [-> | ->]; [reflexivity|]. destruct (trim renameInput); reflexivity.
  - intros r Hne -> Hr r'.
    destruct (trim renameInput) as [|u w] eqn:E; [contradiction Hne; reflexivity|].
    apply (deref_setObject r
             (fun q => mkState (id q) (isFinal q) (u :: w)) st r' Hr).
  - intros input.
    destruct (trim renameInput) as [|u w]; [reflexivity|].
    destruct (Shared.pendingRenameState st) as [r|]; [|reflexivity].
    set (f := fun q => mkState (id q) (isFinal q) (u :: w)).
    unfold Shared.simulateInput. cbn [Shared.setObject Shared.startRef].
    destruct (Shared.startRef st) as [s|]; [|reflexivity].
    rewrite !simulateLoop_endOfLoop.
    rewrite (endOfLoop_same_ids st (Shared.setObject r f st));
      [|reflexivity | apply setObject_same_ids; reflexivity].
    destruct (Shared.endOfLoop st s (codePoints input)) as [e|];
      [|reflexivity].
    unfold Shared.deref, Shared.setObject. cbn [Shared.objects].
    rewrite nth_updateAt.
    destruct ((e =? r)%nat && (r <? List.length (Shared.objects st))%nat) eqn:K;
      [|reflexivity].
    apply andb_true_iff in K as [K _]. apply Nat.eqb_eq in K. subst e.
    reflexivity.
Qed.

Lemma confirmRename_changes_the_label_only_witness :
  let st := Shared.renameState 1
              (Shared.mkStore [Examples.q0; Examples.q1] [0%nat; 1%nat]
                 [Shared.mkArrow 10 0 1 (str "a") None None]
                 (Some 0%nat) (Some 1%nat) None) in
  Shared.deref (Shared.confirmRename (str " end ") st) 1
  = mkState 1 false (str "end").
Proof.
  intros st.
  assert (Hne : trim (str " end ") <> []) by (vm_compute; discriminate).
  assert (Hp : Shared.pendingRenameState st = Some 1%nat) by reflexivity.
  assert (Hr : (1 < List.length (Shared.objects st))%nat) by (simpl; lia).
  exact (proj1 (proj2 (confirmRename_changes_the_label_only (str " end ") st))
           1%nat Hne Hp Hr 1%nat).
Defined.
